(** * keyfinder-cli: the decode-and-normalize pipeline

    A shallow embedding of [keyfinder_cli.cpp]: the packet reader
    ([SafeAVPacket::read]), the decode loop of [fill_audio_data], the
    argument handling of [main] and the comma splitter [split], followed by
    the properties the specification states about them.

    The FFmpeg calls and the KeyFinder classes are external to the program.
    The demuxer is modelled concretely (a container is the list of units it
    will deliver); decoder, resampler and the open/probe calls are an
    interface record [Libav] whose fields are arbitrary functions. *)

From Stdlib Require Import ZArith List Lia Bool String Ascii SpecFloat.
From stdpp Require Import base list gmap strings.

Open Scope Z_scope.

(** ** Machine integers

    [int] and [unsigned int] are 32 bits wide.  Conversions between them are
    written out; sums of [int]s whose overflow would be undefined behaviour
    are left as sums in [Z]. *)

Definition to_unsigned (x : Z) : Z := x mod 2 ^ 32.

Definition to_int (x : Z) : Z :=
  let u := x mod 2 ^ 32 in if u <? 2 ^ 31 then u else u - 2 ^ 32.

(** [uint64_t] and [int64_t]: the channel layout is a [uint64_t], and
    [av_opt_set_int] takes an [int64_t]. *)
Definition to_uint64 (x : Z) : Z := x mod 2 ^ 64.

Definition to_int64 (x : Z) : Z :=
  let u := x mod 2 ^ 64 in if u <? 2 ^ 63 then u else u - 2 ^ 64.

(** [const int BAD_PACKET_THRESHOLD = 100;] *)
Definition BAD_PACKET_THRESHOLD : Z := 100.

(** [enum AVSampleFormat]: [AV_SAMPLE_FMT_S16] is the second enumerator. *)
Definition AV_SAMPLE_FMT_S16 : Z := 1.

(** [enum AVMediaType] *)
Inductive AVMediaType :=
| AVMEDIA_TYPE_UNKNOWN
| AVMEDIA_TYPE_VIDEO
| AVMEDIA_TYPE_AUDIO
| AVMEDIA_TYPE_DATA
| AVMEDIA_TYPE_SUBTITLE
| AVMEDIA_TYPE_ATTACHMENT.

Definition is_audio (t : AVMediaType) : bool :=
  match t with AVMEDIA_TYPE_AUDIO => true | _ => false end.

(** ** Packets and the container *)

(** An [AVPacket] as far as the program looks at it: the buffer it refers
    to, [data] as an offset into that buffer ([None] is the null pointer),
    [size] and [stream_index]. *)
Record AVPacket := mkPacket {
  pkt_buf : list Byte.byte;
  data : option Z;
  size : Z;
  stream_index : Z
}.

(** [av_init_packet] resets the optional fields, [stream_index] among them,
    and leaves [data] and [size] alone. *)
Definition av_init_packet (p : AVPacket) : AVPacket :=
  mkPacket (pkt_buf p) (data p) (size p) 0.

(** [av_packet_unref] drops the buffer and resets the packet: it runs
    [av_init_packet] and clears [data] and [size]. *)
Definition av_packet_unref (p : AVPacket) : AVPacket :=
  let p' := av_init_packet p in
  mkPacket [] None 0 (stream_index p').

(** The packet a [SafeAVPacket] constructor builds:
    [av_init_packet(&inner_packet); data = nullptr; size = 0]. *)
Definition SafeAVPacket_new : AVPacket :=
  let p := av_init_packet (mkPacket [] None 0 0) in
  mkPacket (pkt_buf p) None 0 (stream_index p).

(** [AVCodecContext], the fields the program reads or writes. *)
Record AVCodecContext := mkCodecContext {
  codec_type : AVMediaType;
  codec_id : Z;
  sample_fmt : Z;
  sample_rate : Z;
  channels : Z;
  channel_layout : Z
}.

Record AVStream := mkStream {
  index : Z;
  codec : AVCodecContext
}.

(** One demultiplexed unit of the container: the stream it belongs to and
    its payload. *)
Record RawUnit := mkUnit {
  unit_stream : Z;
  unit_payload : list Byte.byte
}.

(** [AVFormatContext]: the streams in container order and the units that
    [av_read_frame] has not delivered yet. *)
Record AVFormatContext := mkFormat {
  streams : list AVStream;
  pending : list RawUnit
}.

(** [av_read_frame]: delivers the next unit of the container into the
    packet and returns 0; at the end of the container it returns a negative
    code and leaves the packet blank (as FFmpeg documents: "On error, pkt
    will be blank"; earlier releases reset it with [av_init_packet] before
    reading, which gives the same [stream_index]). *)
Definition av_read_frame (c : AVFormatContext) (p : AVPacket)
  : Z * AVFormatContext * AVPacket :=
  match pending c with
  | [] => (-1, c, mkPacket [] None 0 0)
  | u :: rest =>
      (0, mkFormat (streams c) rest,
       mkPacket (unit_payload u) (Some 0)
                (Z.of_nat (length (unit_payload u))) (unit_stream u))
  end.

(** [SafeAVPacket::read].  The [while (true)] loop is bounded by [fuel];
    [None] means the loop has not left within that many rounds. *)
Fixpoint read (fuel : nat) (format_context : AVFormatContext)
    (inner_packet : AVPacket) (stream_index' : Z)
  : option (AVFormatContext * AVPacket) :=
  match fuel with
  | O => None
  | S fuel' =>
      let p1 := match data inner_packet with
                | Some _ => av_packet_unref inner_packet
                | None => inner_packet
                end in
      let '(ret, c2, p2) := av_read_frame format_context p1 in
      let p3 := if ret <? 0
                then mkPacket (pkt_buf p2) None (size p2) (stream_index p2)
                else p2 in
      if stream_index p3 =? stream_index'
      then Some (c2, p3)
      else read fuel' c2 p3 stream_index'
  end.

(** ** Frames and samples *)

(** [AVFrame], the fields the program touches.  [extended_data0] is the
    buffer behind [extended_data[0]] and [linesize0] is [linesize[0]]. *)
Record AVFrame := mkFrame {
  extended_data0 : list Byte.byte;
  linesize0 : Z;
  fr_channel_layout : Z;
  fr_sample_rate : Z;
  fr_format : Z
}.

(** [av_frame_alloc()]: a frame with default fields (no buffer, format
    [AV_SAMPLE_FMT_NONE]). *)
Definition av_frame_alloc : AVFrame := mkFrame [] 0 0 0 (-1).

Definition byte_at (d : list Byte.byte) (i : nat) : Z :=
  match d !! i with
  | Some b => Z.of_N (Byte.to_N b)
  | None => 0
  end.

(** Element [i] of the buffer seen through an [int16_t] pointer: the two
    bytes at [2i] and [2i+1], low byte first, read as a signed 16-bit
    integer.  Bytes past the end of the buffer, which the program has no
    right to read, are read as 0. *)
Definition int16_at (d : list Byte.byte) (i : nat) : Z :=
  let u := byte_at d (2 * i) + 256 * byte_at d (2 * i + 1) in
  if u <? 32768 then u else u - 65536.

(** [(float) x] for a 16-bit integer [x]: the binary32 value nearest to it
    (which is [x] itself). *)
Definition to_float (x : Z) : spec_float := binary_normalize 24 128 x 0 false.

(** [unsigned int sample_count = audio_frame->linesize[0] / 2;] *)
Definition sample_count (f : AVFrame) : Z :=
  to_unsigned (Z.quot (linesize0 f) 2).

(** The samples the write loop reads from a frame: [(float) sample_data[i]]
    for [i] from 0 up to [sample_count]. *)
Definition frame_samples (f : AVFrame) : list spec_float :=
  map (fun i => to_float (int16_at (extended_data0 f) i))
      (seq 0 (Z.to_nat (sample_count f))).

(** ** The sample accumulator

    [KeyFinder::AudioData] belongs to libKeyFinder.  It is modelled through
    the member functions the program calls: a sequence of samples with a
    frame rate, a channel count and two iterators.  Sample counts are
    [unsigned int]s, as the interface declares them, so the sequence holds
    fewer than 2^32 samples after any [addToSampleCount].  A write through
    an iterator that was advanced past the end of the sequence is undefined
    in C++; here it changes nothing. *)
Record AudioData := mkAudio {
  ad_samples : list spec_float;
  ad_channels : Z;
  ad_frameRate : Z;
  ad_writeIterator : nat;
  ad_readIterator : nat
}.

(** A default-constructed [AudioData]. *)
Definition AudioData_new : AudioData := mkAudio [] 0 0 0%nat 0%nat.

Definition setFrameRate (r : Z) (a : AudioData) : AudioData :=
  mkAudio (ad_samples a) (ad_channels a) r
          (ad_writeIterator a) (ad_readIterator a).

Definition setChannels (c : Z) (a : AudioData) : AudioData :=
  mkAudio (ad_samples a) c (ad_frameRate a)
          (ad_writeIterator a) (ad_readIterator a).

(** Declared [unsigned int getSampleCount() const]. *)
Definition getSampleCount (a : AudioData) : Z :=
  to_unsigned (Z.of_nat (length (ad_samples a))).

(** Declared [void addToSampleCount(unsigned int inSamples)]: the sequence
    is resized to [getSampleCount() + inSamples], a sum of two
    [unsigned int]s, and new places hold 0. *)
Definition addToSampleCount (n : Z) (a : AudioData) : AudioData :=
  mkAudio (resize (Z.to_nat (to_unsigned (getSampleCount a + n)))
                  (S754_zero false) (ad_samples a))
          (ad_channels a) (ad_frameRate a)
          (ad_writeIterator a) (ad_readIterator a).

Definition resetIterators (a : AudioData) : AudioData :=
  mkAudio (ad_samples a) (ad_channels a) (ad_frameRate a) 0%nat 0%nat.

(** Declared [void advanceWriteIterator(unsigned int by = 1)]. *)
Definition advanceWriteIterator (by_ : Z) (a : AudioData) : AudioData :=
  mkAudio (ad_samples a) (ad_channels a) (ad_frameRate a)
          (ad_writeIterator a + Z.to_nat (to_unsigned by_))%nat
          (ad_readIterator a).

Definition setSampleAtWriteIterator (v : spec_float) (a : AudioData)
  : AudioData :=
  mkAudio (<[ad_writeIterator a := v]> (ad_samples a))
          (ad_channels a) (ad_frameRate a)
          (ad_writeIterator a) (ad_readIterator a).

(** The [for] loop of lines 244-248, entered with counter [i] and [n]
    rounds to go. *)
Fixpoint write_samples (sample_data : list Byte.byte) (i n : nat)
    (a : AudioData) : AudioData :=
  match n with
  | O => a
  | S n' =>
      write_samples sample_data (S i) n'
        (advanceWriteIterator 1
           (setSampleAtWriteIterator (to_float (int16_at sample_data i)) a))
  end.

(** Lines 235-248: hand the samples of [audio_frame] to the accumulator. *)
Definition append_frame (audio_frame : AVFrame) (audio : AudioData)
  : AudioData :=
  let sample_data := extended_data0 audio_frame in
  let sample_count := sample_count audio_frame in
  let old_sample_count := to_int (getSampleCount audio) in
  let a1 := addToSampleCount sample_count audio in
  let a2 := resetIterators a1 in
  let a3 := advanceWriteIterator old_sample_count a2 in
  write_samples sample_data 0 (Z.to_nat sample_count) a3.

(** ** The library interface *)

(** What [fill_audio_data] asks of libavformat, libavcodec and
    libavresample besides reading packets.  [Decoder] and [Resampler] are
    the internal states of an opened codec and of an opened resample
    context.  Return codes are the C ones (negative on failure);
    [avcodec_decode_audio4] returns the number of bytes it used, the
    [frame_available] flag, the contents of the frame and its new state.
    The fields of the codec context that the program reads are taken to
    stay as probed: no call writes them. *)
Record Libav := mkLibav {
  Decoder : Type;
  Resampler : Type;
  AVCodec : Type;
  avformat_open_input : string -> Z * AVFormatContext;
  avformat_find_stream_info : AVFormatContext -> Z * AVFormatContext;
  avcodec_find_decoder : Z -> option AVCodec;
  avcodec_open2 : AVCodecContext -> AVCodec -> Z * Decoder;
  av_get_default_channel_layout : Z -> Z;
  avresample_open : gmap string Z -> Z * Resampler;
  avcodec_decode_audio4 :
    Decoder -> AVFrame -> AVPacket -> Z * Z * AVFrame * Decoder;
  avresample_convert_frame :
    Resampler -> AVFrame -> AVFrame -> Z * AVFrame * Resampler
}.

(** [av_opt_set_int(ctx, name, value, 0)] on the resample context, whose
    options are kept by name. *)
Definition av_opt_set_int (ctx : gmap string Z) (name : string) (v : Z)
  : gmap string Z := <[name := v]> ctx.

(** [avresample_alloc_context()]: no option set yet. *)
Definition avresample_alloc_context : gmap string Z := ∅.

(** The errors [fill_audio_data] throws, named as in the specification. *)
Inductive Error :=
| OpenError
| ProbeError
| NoAudioStreamError
| UnsupportedCodecError
| CodecOpenError
| ResampleOpenError
| ResampleConvertError
| TooManyBadPacketsError.

(** The message of the [std::runtime_error] thrown for each. *)
Definition what (e : Error) : string :=
  match e with
  | OpenError =>
      "Unable to open audio file (File doesn't eixst or unhandle format)"
  | ProbeError => "Unable to get stream info"
  | NoAudioStreamError => "File does not have any audio streams"
  | UnsupportedCodecError => "Unsupported audio stream"
  | CodecOpenError => "Unable to open the codec"
  | ResampleOpenError => "Unable to open the resample context"
  | ResampleConvertError => "Unable to resample audio into 16bit PCM data"
  | TooManyBadPacketsError => "Too many bad packets"
  end%string.

(** Lines 107-120: the first stream whose codec type is audio. *)
Fixpoint find_audio_stream (ss : list AVStream) : option AVStream :=
  match ss with
  | [] => None
  | stream :: rest =>
      if is_audio (codec_type (codec stream)) then Some stream
      else find_audio_stream rest
  end.

(** Lines 147-150: fill in a missing channel layout.  The layout is a
    [uint64_t] and [av_get_default_channel_layout] returns an [int64_t]. *)
Definition derive_channel_layout (default_layout : Z -> Z)
    (cc : AVCodecContext) : AVCodecContext :=
  if channel_layout cc =? 0
  then mkCodecContext (codec_type cc) (codec_id cc) (sample_fmt cc)
         (sample_rate cc) (channels cc)
         (to_uint64 (default_layout (channels cc)))
  else cc.

(** Lines 152-157: the six options of the resample context.  The value
    parameter of [av_opt_set_int] is an [int64_t]: format and rate are
    [int]s and arrive as they are, the layout is a [uint64_t] and arrives
    converted. *)
Definition configure_resampler (cc : AVCodecContext) : gmap string Z :=
  let c0 := avresample_alloc_context in
  let c1 := av_opt_set_int c0 "in_sample_fmt" (sample_fmt cc) in
  let c2 := av_opt_set_int c1 "in_sample_rate" (sample_rate cc) in
  let c3 := av_opt_set_int c2 "in_channel_layout"
                           (to_int64 (channel_layout cc)) in
  let c4 := av_opt_set_int c3 "out_sample_fmt" AV_SAMPLE_FMT_S16 in
  let c5 := av_opt_set_int c4 "out_sample_rate" (sample_rate cc) in
  av_opt_set_int c5 "out_channel_layout" (to_int64 (channel_layout cc)).

(** ** The decode loop *)

(** What one round of the loop did, recorded beside the state so that
    properties of a whole run can be stated.  The program keeps no such
    record and nothing in the model reads it. *)
Inductive Event :=
| EvRead (p : AVPacket)
| EvDecode (presented : AVPacket) (processed_size frame_available : Z)
| EvAppend (f : AVFrame).

Section Pipeline.

Variable lib : Libav.

(** The variables that live across rounds of the [while (true)] loop. *)
Record LoopState := mkLoop {
  format_ctx : AVFormatContext;
  decoder : Decoder lib;
  resampler : Resampler lib;
  packet : AVPacket;
  audio_frame : AVFrame;
  current_packet_offset : Z;
  back_packet_count : Z;
  audio : AudioData;
  trace : list Event
}.

Inductive Iter :=
| Continue (st : LoopState)
| Break (st : LoopState)
| Throw (e : Error) (st : LoopState)
| Stuck.

Definition log (ev : Event) (st : LoopState) : LoopState :=
  mkLoop (format_ctx st) (decoder st) (resampler st) (packet st)
         (audio_frame st) (current_packet_offset st) (back_packet_count st)
         (audio st) (trace st ++ [ev]).

(** Lines 176-185.  [None]: [packet.read] has not returned; otherwise
    whether the loop is left and the state. *)
Definition refill (fuel : nat) (audio_stream : AVStream) (st : LoopState)
  : option (bool * LoopState) :=
  if size (packet st) <=? current_packet_offset st then
    match read fuel (format_ctx st) (packet st) (index audio_stream) with
    | None => None
    | Some (c, p) =>
        let st1 := log (EvRead p)
                     (mkLoop c (decoder st) (resampler st) p (audio_frame st)
                             0 (back_packet_count st) (audio st) (trace st)) in
        Some (size p <=? 0, st1)
    end
  else Some (false, st).

(** Lines 192-201, the branch taken with [processed_size < 0]. *)
Definition bad_packet (st : LoopState) : Iter :=
  let count := back_packet_count st + 1 in
  let st1 := mkLoop (format_ctx st) (decoder st) (resampler st) (packet st)
                    (audio_frame st) (current_packet_offset st) count
                    (audio st) (trace st) in
  if count >? BAD_PACKET_THRESHOLD then Throw TooManyBadPacketsError st1
  else
    let p := packet st1 in
    Continue (mkLoop (format_ctx st1) (decoder st1) (resampler st1)
                     (mkPacket (pkt_buf p) (data p) 0 (stream_index p))
                     (audio_frame st1) 0 (back_packet_count st1)
                     (audio st1) (trace st1)).

(** Lines 203-209: move the packet on after a decode that used
    [processed_size] bytes. *)
Definition seek_packet (processed_size : Z) (st : LoopState) : LoopState :=
  let offset := current_packet_offset st + processed_size in
  let p := packet st in
  mkLoop (format_ctx st) (decoder st) (resampler st)
         (mkPacket (pkt_buf p) (option_map (fun d => d + offset) (data p))
                   (size p - offset) (stream_index p))
         (audio_frame st) offset (back_packet_count st)
         (audio st) (trace st).

(** Lines 217-229: bring the frame to 16-bit PCM when the codec delivers
    another format.  [inr] carries the state at the throw. *)
Definition normalize (codec_context : AVCodecContext) (st : LoopState)
  : LoopState + LoopState :=
  if negb (sample_fmt codec_context =? AV_SAMPLE_FMT_S16) then
    let converted_frame :=
      mkFrame (extended_data0 av_frame_alloc) (linesize0 av_frame_alloc)
              (fr_channel_layout (audio_frame st))
              (fr_sample_rate (audio_frame st)) AV_SAMPLE_FMT_S16 in
    let '(ret, out, rs) :=
      avresample_convert_frame lib (resampler st) converted_frame
                               (audio_frame st) in
    let st1 := mkLoop (format_ctx st) (decoder st) rs (packet st)
                      (audio_frame st) (current_packet_offset st)
                      (back_packet_count st) (audio st) (trace st) in
    if ret <? 0 then inr st1
    else inl (mkLoop (format_ctx st1) (decoder st1) (resampler st1)
                     (packet st1) out (current_packet_offset st1)
                     (back_packet_count st1) (audio st1) (trace st1))
  else inl st.

(** Lines 235-248 on the loop state. *)
Definition populate (st : LoopState) : LoopState :=
  log (EvAppend (audio_frame st))
      (mkLoop (format_ctx st) (decoder st) (resampler st) (packet st)
              (audio_frame st) (current_packet_offset st)
              (back_packet_count st)
              (append_frame (audio_frame st) (audio st)) (trace st)).

(** One round of the [while (true)] loop, lines 174-249. *)
Definition iteration (fuel : nat) (codec_context : AVCodecContext)
    (audio_stream : AVStream) (st : LoopState) : Iter :=
  match refill fuel audio_stream st with
  | None => Stuck
  | Some (true, st1) => Break st1
  | Some (false, st1) =>
      let '(processed_size, frame_available, frame, dec) :=
        avcodec_decode_audio4 lib (decoder st1) (audio_frame st1)
                              (packet st1) in
      let st2 :=
        log (EvDecode (packet st1) processed_size frame_available)
            (mkLoop (format_ctx st1) dec (resampler st1) (packet st1) frame
                    (current_packet_offset st1) (back_packet_count st1)
                    (audio st1) (trace st1)) in
      if processed_size <? 0 then bad_packet st2
      else
        let st3 := seek_packet processed_size st2 in
        if frame_available =? 0 then Continue st3
        else
          match normalize codec_context st3 with
          | inr st4 => Throw ResampleConvertError st4
          | inl st4 => Continue (populate st4)
          end
  end.

(** How the loop ends: it is left by [break], an exception leaves it, or
    the model has run out of fuel; each with the state at that point. *)
Inductive LoopOutcome :=
| LoopReturned (st : LoopState)
| LoopThrew (e : Error) (st : LoopState)
| LoopOutOfFuel (st : LoopState).

Fixpoint decode_loop (fuel : nat) (codec_context : AVCodecContext)
    (audio_stream : AVStream) (st : LoopState) : LoopOutcome :=
  match fuel with
  | O => LoopOutOfFuel st
  | S fuel' =>
      match iteration fuel' codec_context audio_stream st with
      | Continue st' => decode_loop fuel' codec_context audio_stream st'
      | Break st' => LoopReturned st'
      | Throw e st' => LoopThrew e st'
      | Stuck => LoopOutOfFuel st
      end
  end.

(** How a call of [fill_audio_data] ends.  The accumulator is passed by
    reference, so its contents at a throw are part of the outcome. *)
Inductive Outcome :=
| Returned (audio : AudioData) (trace : list Event)
| Threw (e : Error) (audio : AudioData) (trace : list Event)
| OutOfFuel (audio : AudioData) (trace : list Event).

Definition outcome_of (o : LoopOutcome) : Outcome :=
  match o with
  | LoopReturned st => Returned (audio st) (trace st)
  | LoopThrew e st => Threw e (audio st) (trace st)
  | LoopOutOfFuel st => OutOfFuel (audio st) (trace st)
  end.

(** The loop variables as lines 166-170 initialise them. *)
Definition initial_state (c : AVFormatContext) (dec : Decoder lib)
    (rs : Resampler lib) (a : AudioData) : LoopState :=
  mkLoop c dec rs SafeAVPacket_new av_frame_alloc 0 0 a [].

(** [fill_audio_data].  The one-time [av_register_all] has no effect on
    what is modelled.  The codec context is read through [codec_context]
    only, so the layout written at line 149 is kept in that value. *)
Definition fill_audio_data (fuel : nat) (file_path : string)
    (audio : AudioData) : Outcome :=
  let '(r, format_ctx) := avformat_open_input lib file_path in
  if r <? 0 then Threw OpenError audio [] else
  let '(r, format_ctx) := avformat_find_stream_info lib format_ctx in
  if r <? 0 then Threw ProbeError audio [] else
  match find_audio_stream (streams format_ctx) with
  | None => Threw NoAudioStreamError audio []
  | Some audio_stream =>
      let codec_context := codec audio_stream in
      match avcodec_find_decoder lib (codec_id codec_context) with
      | None => Threw UnsupportedCodecError audio []
      | Some codec =>
          let '(r, dec) := avcodec_open2 lib codec_context codec in
          if r <? 0 then Threw CodecOpenError audio [] else
          let codec_context :=
            derive_channel_layout (av_get_default_channel_layout lib)
                                  codec_context in
          let '(r, rs) := avresample_open lib
                            (configure_resampler codec_context) in
          if r <? 0 then Threw ResampleOpenError audio [] else
          let audio := setFrameRate (to_unsigned (sample_rate codec_context))
                                    audio in
          let audio := setChannels (to_unsigned (channels codec_context))
                                   audio in
          outcome_of (decode_loop fuel codec_context audio_stream
                                  (initial_state format_ctx dec rs audio))
      end
  end.

End Pipeline.

Arguments mkLoop {lib}.
Arguments format_ctx {lib}.
Arguments decoder {lib}.
Arguments resampler {lib}.
Arguments packet {lib}.
Arguments audio_frame {lib}.
Arguments current_packet_offset {lib}.
Arguments back_packet_count {lib}.
Arguments audio {lib}.
Arguments trace {lib}.
Arguments Continue {lib}.
Arguments Break {lib}.
Arguments Throw {lib}.
Arguments Stuck {lib}.
Arguments LoopReturned {lib}.
Arguments LoopThrew {lib}.
Arguments LoopOutOfFuel {lib}.
Arguments outcome_of {lib}.

(** ** Tone profiles and the comma splitter *)

(** [SEMITONES] and [OCTAVES] come from [keyfinder/constants.h] of
    libKeyFinder: twelve semitones in each of six octaves. *)
Definition SEMITONES : nat := 12.
Definition OCTAVES : nat := 6.

(** The binary64 number [m * 2^e]. *)
Definition double (m e : Z) : spec_float := binary_normalize 53 1024 m e false.

(** The three tables, each literal as the binary64 value it denotes. *)
Definition MAJOR_PROFILE : list spec_float :=
  [ double 1018799385576373 (-47); double 14694793 (-22);
    double 2017866959983507 (-49); double 1601659138344837 (-49);
    double 3275799542140507 (-49); double 2566292128383587 (-49);
    double 86123901570697 (-45);   double 3937684009385141 (-49);
    double 29828133183181 (-43);   double 2564880245620987 (-49);
    double 2293416827224147 (-49); double 4903082519443 (-40) ].

Definition MINOR_PROFILE : list spec_float :=
  [ double 7884170899994517 (-50); double 7078764177182639 (-51);
    double 4907846329593737 (-50); double 3042283558867569 (-49);
    double 8269384005148315 (-51); double 2302303095001331 (-49);
    double 4399920413777859 (-50); double 109064567365381 (-44);
    double 8183595042716307 (-51); double 6468096605563925 (-51);
    double 3014416855429409 (-49); double 8629843511046845 (-51) ].

Definition OCTAVE_WEIGHTS : list spec_float :=
  [ double 7205267169360721 (-54); double 2505551768172185 (-52);
    double 2364238318821929 (-52); double 1370164981149207 (-51);
    double 5395142629132857 (-53); double 2210026014121319 (-52) ].

(** The nested loops shared by [toneProfileMajor] and [toneProfileMinor]:
    one weighted copy of the profile for each octave. *)
Definition weighted_profile (profiles : list spec_float) : list spec_float :=
  flat_map (fun w => map (fun p => SFmul 53 1024 w p)
                         (firstn SEMITONES profiles))
           (firstn OCTAVES OCTAVE_WEIGHTS).

(** [toneProfileMajor] on the vector [tpMajor] it memoises: the vector is
    filled on the first call and returned as it is afterwards. *)
Definition toneProfileMajor (tpMajor profiles : list spec_float)
  : list spec_float :=
  if (length tpMajor =? 0)%nat then weighted_profile profiles else tpMajor.

(** [toneProfileMinor], the same on [tpMinor]. *)
Definition toneProfileMinor (tpMinor profiles : list spec_float)
  : list spec_float :=
  if (length tpMinor =? 0)%nat then weighted_profile profiles else tpMinor.

(** One [std::getline(ss, item, delim)] on the rest [ss] of the stream:
    the characters up to the delimiter, which is consumed, or up to the end
    of the stream. *)
Fixpoint getline_chars (ss : string) (delim : ascii) : string * string :=
  match ss with
  | EmptyString => (EmptyString, EmptyString)
  | String c rest =>
      if Ascii.eqb c delim then (EmptyString, rest)
      else let '(item, rest') := getline_chars rest delim in
           (String c item, rest')
  end.

(** [getline] fails when the stream has nothing left to extract. *)
Definition getline (ss : string) (delim : ascii) : option (string * string) :=
  match ss with
  | EmptyString => None
  | _ => Some (getline_chars ss delim)
  end.

(** [while (std::getline(ss, item, delim)) *(result++) = item;] *)
Fixpoint split_loop (fuel : nat) (ss : string) (delim : ascii)
  : list string :=
  match fuel with
  | O => []
  | S fuel' =>
      match getline ss delim with
      | None => []
      | Some (item, rest) => item :: split_loop fuel' rest delim
      end
  end.

(** [split(s, delim)].  Every successful [getline] consumes a character,
    so [S (length s)] rounds exhaust the stream ([split_loop_enough]). *)
Definition split (s : string) (delim : ascii) : list string :=
  split_loop (S (String.length s)) s delim.

(** [profile_str[s]]: [std::vector::operator[]] checks no bound; [None] is
    an access past the end. *)
Definition vector_at (profile_str : list string) (s : nat) : option string :=
  profile_str !! s.

(** How the loop that fills [profiles] ends. *)
Inductive Parsed :=
| ParsedOk (profiles : list spec_float)
| ParsedOutOfBounds (s : nat)
| ParsedThrow (s : nat).

(** ** The command line *)

(** How [main] ends: it returns [code], having written the lines [out] to
    [std::cout] and [err] to [std::cerr]; an exception escapes it; it
    indexes a vector past its end; or the decode has not returned. *)
Inductive MainResult :=
| Exit (code : Z) (out err : list string)
| Terminated
| Undefined
| Hangs.

Section CommandLine.

Variable lib : Libav.

(** [key_notations.h] is not among the sources: the notation tables are
    taken as they are used, a map from names to tables, the standard table,
    and the label a table gives a key. *)
Variable Notation : Type.
Variable mappings : gmap string Notation.
Variable standard : Notation.
Variable label : Notation -> Z -> string.

(** libKeyFinder: the value [KeyFinder::SILENCE] and the estimation
    ([progressiveChromagram], [finalChromagram], [keyOfChromaVector]), which
    returns a key or throws an exception with a message. *)
Variable SILENCE : Z.
Variable estimate_key :
  AudioData -> list spec_float -> list spec_float -> string + Z.

(** [std::stod]; [None] when it throws. *)
Variable stod : string -> option spec_float.

(** [for (s = 0; s < SEMITONES; s++) profiles[s] = stod(profile_str[s]);]
    entered with counter [s] and [n] rounds to go. *)
Fixpoint parse_profile (profile_str : list string) (s n : nat)
    (profiles : list spec_float) : Parsed :=
  match n with
  | O => ParsedOk profiles
  | S n' =>
      match vector_at profile_str s with
      | None => ParsedOutOfBounds s
      | Some item =>
          match stod item with
          | None => ParsedThrow s
          | Some v => parse_profile profile_str (S s) n' (<[s := v]> profiles)
          end
      end
  end.

(** The locals of [main] that the option loop changes, and the two
    memoised vectors. *)
Record Options := mkOptions {
  selected_notation : Notation;
  profiles : list spec_float;
  tpMajor : list spec_float;
  tpMinor : list spec_float
}.

Definition usage (argv0 : string) : string :=
  ("Usage: " ++ argv0 ++
   " [-h] [-n key-notation] [-mj major-profile] [-mi minor-profile] filename")
  %string.

(** The option loop, lines 363-399, over the values [getopt_long] returns
    before -1, each with its [optarg].  [inl] is a [return] or an abnormal
    end inside the loop. *)
Fixpoint option_loop (argv0 : string) (opts : list (ascii * string))
    (o : Options) : MainResult + Options :=
  match opts with
  | [] => inr o
  | (c, optarg) :: opts' =>
      if Ascii.eqb c "h" then inl (Exit 0 [usage argv0] [])
      else if Ascii.eqb c "?" then inl (Exit 0 [] [usage argv0])
      else if Ascii.eqb c "n" then
        match mappings !! optarg with
        | None => inl (Exit 1 [] ["Invalid key notation"%string])
        | Some notation =>
            option_loop argv0 opts'
              (mkOptions notation (profiles o) (tpMajor o) (tpMinor o))
        end
      else if Ascii.eqb c "j" then
        match parse_profile (split optarg ",") 0 SEMITONES (profiles o) with
        | ParsedOutOfBounds _ => inl Undefined
        | ParsedThrow _ => inl Terminated
        | ParsedOk ps =>
            option_loop argv0 opts'
              (mkOptions (selected_notation o) ps
                         (toneProfileMajor (tpMajor o) ps) (tpMinor o))
        end
      else if Ascii.eqb c "i" then
        match parse_profile (split optarg ",") 0 SEMITONES (profiles o) with
        | ParsedOutOfBounds _ => inl Undefined
        | ParsedThrow _ => inl Terminated
        | ParsedOk ps =>
            option_loop argv0 opts'
              (mkOptions (selected_notation o) ps
                         (tpMajor o) (toneProfileMinor (tpMinor o) ps))
        end
      else option_loop argv0 opts' o
  end.

(** [main].  [opts] are the results of [getopt_long] in order and [rest]
    is [argv] from [optind] on; [fuel] bounds the decode. *)
Definition main (fuel : nat) (argv0 : string) (opts : list (ascii * string))
    (rest : list string) : MainResult :=
  let o0 := mkOptions standard (replicate SEMITONES (S754_zero false)) [] [] in
  match option_loop argv0 opts o0 with
  | inl r => r
  | inr o =>
      match rest with
      | [] => Exit 1 [] [usage argv0]
      | file_path :: _ =>
          match fill_audio_data lib fuel file_path AudioData_new with
          | OutOfFuel _ _ => Hangs
          | Threw e _ _ => Exit 1 [] [what e]
          | Returned audio_data _ =>
              match estimate_key audio_data
                      (toneProfileMajor (tpMajor o) MAJOR_PROFILE)
                      (toneProfileMinor (tpMinor o) MINOR_PROFILE) with
              | inl msg => Exit 1 [] [msg]
              | inr key =>
                  if key =? SILENCE then Exit 0 [] []
                  else Exit 0 [label (selected_notation o) key] []
              end
          end
      end
  end.

End CommandLine.

(** ** Reading a trace *)

(** The decoder rejected the packet: a negative [processed_size]. *)
Definition is_bad_decode (ev : Event) : bool :=
  match ev with
  | EvDecode _ processed_size _ => processed_size <? 0
  | _ => false
  end.

(** The decoder produced a frame: it used [processed_size >= 0] bytes and
    set [frame_available]. *)
Definition is_produced (ev : Event) : bool :=
  match ev with
  | EvDecode _ processed_size frame_available =>
      negb (processed_size <? 0) && negb (frame_available =? 0)
  | _ => false
  end.

Definition bad_decodes (t : list Event) : nat :=
  length (List.filter is_bad_decode t).

Definition produced (t : list Event) : nat :=
  length (List.filter is_produced t).

(** The frames whose samples went to the accumulator, in order. *)
Fixpoint appended (t : list Event) : list AVFrame :=
  match t with
  | [] => []
  | EvAppend f :: t' => f :: appended t'
  | _ :: t' => appended t'
  end.

(** Every rejected packet that is not the end of the trace is followed by a
    fresh read. *)
Fixpoint refetch_after_bad (t : list Event) : Prop :=
  match t with
  | [] => True
  | ev :: t' =>
      (if is_bad_decode ev
       then match t' with
            | [] | EvRead _ :: _ => True
            | _ => False
            end
       else True) /\ refetch_after_bad t'
  end.

(** The trace ends with a rejected packet. *)
Definition ends_bad (t : list Event) : bool :=
  match last t with
  | Some ev => is_bad_decode ev
  | None => false
  end.

(** The samples of a list of frames, one frame after the other. *)
Definition samples_of (fs : list AVFrame) : list spec_float :=
  concat (map frame_samples fs).

(** The sum of the sample counts of a list of frames. *)
Definition total_samples (fs : list AVFrame) : Z :=
  fold_right (fun f n => sample_count f + n) 0 fs.

Definition not_audio (s : AVStream) : Prop :=
  codec_type (codec s) <> AVMEDIA_TYPE_AUDIO.

(** The counter equals the number of rejected packets so far, that number
    has not passed the threshold, every rejection so far was followed by a
    read, and after a rejection the next round reads. *)
Definition counting {lib : Libav} (st : LoopState lib) : Prop :=
  back_packet_count st = Z.of_nat (bad_decodes (trace st)) /\
  (bad_decodes (trace st) <= 100)%nat /\
  refetch_after_bad (trace st) /\
  (ends_bad (trace st) = true ->
   size (packet st) <= current_packet_offset st).

Definition counted {lib : Libav} (o : LoopOutcome lib) : Prop :=
  match o with
  | LoopThrew TooManyBadPacketsError st =>
      bad_decodes (trace st) = 101%nat /\
      back_packet_count st = 101 /\
      ends_bad (trace st) = true /\
      refetch_after_bad (trace st)
  | LoopThrew _ st | LoopReturned st | LoopOutOfFuel st =>
      back_packet_count st = Z.of_nat (bad_decodes (trace st)) /\
      (bad_decodes (trace st) <= 100)%nat /\
      refetch_after_bad (trace st)
  end.

(** The accumulator [a] against the accumulator [a0] the loop started
    with, after the events [t]: frame rate and channel count are those of
    [a0], and as long as the samples of [a0] and of the appended frames are
    fewer than 2^32 in all, the samples are those of [a0] followed by the
    samples of the appended frames. *)
Definition accumulated (a0 a : AudioData) (t : list Event) : Prop :=
  ad_frameRate a = ad_frameRate a0 /\
  ad_channels a = ad_channels a0 /\
  (Z.of_nat (length (ad_samples a0)) + total_samples (appended t) < 2 ^ 32 ->
   ad_samples a = ad_samples a0 ++ samples_of (appended t)).

(** The same for a loop state, with every produced frame appended. *)
Definition accumulating {lib : Libav} (a0 : AudioData) (st : LoopState lib)
  : Prop :=
  accumulated a0 (audio st) (trace st) /\
  produced (trace st) = length (appended (trace st)).

(** The stream [fill_audio_data] selects in the file at [file_path]. *)
Definition selected_stream (lib : Libav) (file_path : string)
  : option AVStream :=
  find_audio_stream
    (streams (snd (avformat_find_stream_info lib
                     (snd (avformat_open_input lib file_path))))).

(** The six errors thrown before the accumulator is first written. *)
Definition before_loop (e : Error) : bool :=
  match e with
  | ResampleConvertError | TooManyBadPacketsError => false
  | _ => true
  end.

(** The fields of a codec context other than the channel layout. *)
Definition without_layout (cc : AVCodecContext)
  : AVMediaType * Z * Z * Z * Z :=
  (codec_type cc, codec_id cc, sample_fmt cc, sample_rate cc, channels cc).



(** ** Concrete inputs *)

(** A library for examples.  Every path opens the container [c]; each
    stream has a decoder; the decoder answers its calls from [script]
    (bytes used, [frame_available], frame) and, once the script is over,
    uses up the whole packet without a frame; the resampler keeps the
    buffer of its input and returns [convert_ret]. *)
Definition scripted_lib (c : AVFormatContext)
    (script : list (Z * Z * AVFrame)) (convert_ret : Z) : Libav :=
  mkLibav (list (Z * Z * AVFrame)) unit unit
    (fun _ => (0, c))
    (fun c' => (0, c'))
    (fun _ => Some tt)
    (fun _ _ => (0, script))
    (fun n => if n =? 1 then 4 else if n =? 2 then 3 else 0)
    (fun _ => (0, tt))
    (fun d fr p =>
       match d with
       | [] => (size p, 0, fr, [])
       | (n, got, f) :: d' => (n, got, f, d')
       end)
    (fun r out inp =>
       (convert_ret,
        mkFrame (extended_data0 inp) (linesize0 inp) (fr_channel_layout out)
                (fr_sample_rate out) (fr_format out), r)).

(** Mono 44.1 kHz 16-bit PCM without layout, stereo AAC at 48 kHz decoded
    to planar float, and a video stream. *)
Definition pcm_mono : AVCodecContext :=
  mkCodecContext AVMEDIA_TYPE_AUDIO 65536 AV_SAMPLE_FMT_S16 44100 1 0.
Definition aac_stereo : AVCodecContext :=
  mkCodecContext AVMEDIA_TYPE_AUDIO 86018 8 48000 2 0.
Definition video : AVCodecContext :=
  mkCodecContext AVMEDIA_TYPE_VIDEO 27 (-1) 0 0 0.

(** A file with one audio stream and one packet of 100 bytes, read by a
    decoder that uses 10 bytes in each call and needs four calls before it
    would have a frame. *)
Definition partial_file : AVFormatContext :=
  mkFormat [mkStream 0 pcm_mono] [mkUnit 0 (replicate 100 Byte.x00)].
Definition partial_lib : Libav :=
  scripted_lib partial_file (replicate 4 (10, 0, av_frame_alloc)) 0.

(** A file whose audio stream has [n] packets, none of which decodes. *)
Definition corrupt_file (n : nat) : AVFormatContext :=
  mkFormat [mkStream 0 pcm_mono] (replicate n (mkUnit 0 [Byte.x00; Byte.x00])).
Definition corrupt_lib (n : nat) : Libav :=
  scripted_lib (corrupt_file n) (replicate n (-1, 0, av_frame_alloc)) 0.

(** A video file: the video stream first, the audio stream second, one
    packet of each. *)
Definition movie_file : AVFormatContext :=
  mkFormat [mkStream 0 video; mkStream 1 pcm_mono]
           [mkUnit 0 (replicate 8 Byte.x00); mkUnit 1 [Byte.x01; Byte.x01]].
Definition movie_lib : Libav := scripted_lib movie_file [] 0.

(** The loop on [movie_file] after its first round: the audio packet has
    been read and used up, and the container is at its end. *)
Definition movie_state1 : LoopState movie_lib :=
  @mkLoop movie_lib (mkFormat (streams movie_file) []) [] tt
    (mkPacket [Byte.x01; Byte.x01] (Some 2) 0 1)
    av_frame_alloc 2 0 (mkAudio [] 1 44100 0%nat 0%nat)
    [ EvRead (mkPacket [Byte.x01; Byte.x01] (Some 0) 2 1);
      EvDecode (mkPacket [Byte.x01; Byte.x01] (Some 0) 2 1) 2 0 ].

(** A file with a video stream only. *)
Definition silent_movie_file : AVFormatContext :=
  mkFormat [mkStream 0 video] [mkUnit 0 (replicate 8 Byte.x00)].
Definition silent_movie_lib : Libav := scripted_lib silent_movie_file [] 0.

(** A frame of one 16-bit sample, 257. *)
Definition one_sample_frame : AVFrame :=
  mkFrame [Byte.x01; Byte.x01] 2 4 44100 AV_SAMPLE_FMT_S16.

(** A file of one packet that decodes to [one_sample_frame]. *)
Definition one_frame_file : AVFormatContext :=
  mkFormat [mkStream 0 pcm_mono] [mkUnit 0 [Byte.x01; Byte.x01]].
Definition one_frame_lib : Libav :=
  scripted_lib one_frame_file [(2, 1, one_sample_frame)] 0.

(** The same frame behind the AAC stream, so that the resampler runs, and
    the same with a resampler that fails. *)
Definition aac_file : AVFormatContext :=
  mkFormat [mkStream 0 aac_stereo] [mkUnit 0 [Byte.x01; Byte.x01]].
Definition aac_broken_lib : Libav :=
  scripted_lib aac_file [(2, 1, one_sample_frame)] (-1).

(** A [stod] for examples: it reads unsigned decimal integers and throws
    on anything else. *)
Fixpoint digits_value (s : string) (acc : Z) : option Z :=
  match s with
  | EmptyString => Some acc
  | String c rest =>
      let n := Z.of_nat (nat_of_ascii c) in
      if (48 <=? n) && (n <=? 57)
      then digits_value rest (10 * acc + (n - 48))
      else None
  end.

Definition stod_digits (s : string) : option spec_float :=
  match s with
  | EmptyString => None
  | _ => option_map (fun v => double v 0) (digits_value s 0)
  end.

(** An accumulator that has been used before: one sample, 7, with the
    rate and channel count of another file. *)
Definition used_audio : AudioData :=
  mkAudio [to_float 7] 2 8000 1%nat 0%nat.


(** A file whose first packet decodes to [one_sample_frame] and whose other
    101 packets are rejected. *)
Definition flaky_file : AVFormatContext :=
  mkFormat [mkStream 0 pcm_mono]
    (mkUnit 0 [Byte.x01; Byte.x01]
     :: replicate 101 (mkUnit 0 [Byte.x00; Byte.x00])).
Definition flaky_lib : Libav :=
  scripted_lib flaky_file
    ((2, 1, one_sample_frame) :: replicate 101 (-1, 0, av_frame_alloc)) 0.

(** ** Notions for the properties of the splitter, the options and the loop *)

Arguments selected_notation {Notation}.
Arguments profiles {Notation}.
Arguments tpMajor {Notation}.
Arguments tpMinor {Notation}.
Arguments mkOptions {Notation}.

(** Whether the character [d] occurs in [s]. *)
Fixpoint has_char (d : ascii) (s : string) : bool :=
  match s with
  | EmptyString => false
  | String c rest => Ascii.eqb c d || has_char d rest
  end.

(** The fields written one after the other with [d] between them. *)
Definition join (d : ascii) (fields : list string) : string :=
  String.concat (String d EmptyString) fields.

(** The last field, if there is one, is not the empty string. *)
Definition last_nonempty (fields : list string) : Prop :=
  match last fields with
  | Some f => f <> EmptyString
  | None => True
  end.

(** What [main] has written when it returns: exit code 0 or 1, one line at
    most on the two streams together, and with exit code 1 nothing on the
    output stream and one line on the error stream. *)
Definition one_line_at_most (r : MainResult) : Prop :=
  match r with
  | Exit code out err =>
      (code = 0 \/ code = 1) /\
      (length out + length err <= 1)%nat /\
      (code = 1 -> out = [] /\ length err = 1%nat)
  | _ => True
  end.

(** An option other than [-j] and [-i]. *)
Definition no_profile_option (opt : ascii * string) : bool :=
  negb (Ascii.eqb (fst opt) "j") && negb (Ascii.eqb (fst opt) "i").

(** [main] returns or is still decoding: no exception has escaped it and
    no vector was read past its end. *)
Definition ends_normally (r : MainResult) : bool :=
  match r with
  | Exit _ _ _ | Hangs => true
  | Terminated | Undefined => false
  end.

(** The packet [av_read_frame] makes of a unit, and the blank packet it
    leaves at the end of the container. *)
Definition delivered (u : RawUnit) : AVPacket :=
  mkPacket (unit_payload u) (Some 0) (Z.of_nat (length (unit_payload u)))
           (unit_stream u).

Definition blank_packet : AVPacket := mkPacket [] None 0 0.

(** A decoder that never answers 0 for a packet that has bytes left: it
    uses at least one byte or rejects the packet. *)
Definition makes_progress (lib : Libav) : Prop :=
  forall d fr p n got fr' d',
    0 < size p ->
    avcodec_decode_audio4 lib d fr p = (n, got, fr', d') -> n <> 0.

(** A decoder that uses all the bytes it is given or rejects the packet. *)
Definition uses_whole_packet (lib : Libav) : Prop :=
  forall d fr p n got fr' d',
    avcodec_decode_audio4 lib d fr p = (n, got, fr', d') ->
    n < 0 \/ n = size p.

(** A bound on the rounds the loop still needs: the bytes left in the
    current packet, and for every unit not yet read its bytes and one round
    more. *)
Definition units_work (us : list RawUnit) : nat :=
  fold_right (fun u n => S (length (unit_payload u)) + n)%nat 0%nat us.

Definition work {lib : Libav} (st : LoopState lib) : nat :=
  (Z.to_nat (size (packet st) - current_packet_offset st)
   + units_work (pending (format_ctx st)))%nat.

(** The container as [fill_audio_data] has it after opening and probing,
    and an amount of fuel that covers its units. *)
Definition probed (lib : Libav) (file_path : string) : AVFormatContext :=
  snd (avformat_find_stream_info lib (snd (avformat_open_input lib file_path))).

Definition enough_fuel (lib : Libav) (file_path : string) : nat :=
  (units_work (pending (probed lib file_path)) + 2)%nat.

(** The call has returned or thrown. *)
Definition ended (o : Outcome) : bool :=
  match o with
  | OutOfFuel _ _ => false
  | Returned _ _ | Threw _ _ _ => true
  end.

Definition trace_of (o : Outcome) : list Event :=
  match o with
  | Returned _ t | Threw _ _ t | OutOfFuel _ t => t
  end.

Definition is_decode (ev : Event) : bool :=
  match ev with
  | EvDecode _ _ _ => true
  | _ => false
  end.

(** Every packet presented to the decoder is whole, starts at its first
    byte, and is the packet read by the event just before. *)
Definition decodes_fresh (t : list Event) : Prop :=
  forall t1 p n got t2,
    t = t1 ++ EvDecode p n got :: t2 ->
    data p = Some 0 /\ size p = Z.of_nat (length (pkt_buf p)) /\
    exists t0, t1 = t0 ++ [EvRead p].

(** The same for a loop state whose next round reads a packet. *)
Definition fresh {lib : Libav} (st : LoopState lib) : Prop :=
  decodes_fresh (trace st) /\ size (packet st) <= current_packet_offset st.

(** ** More concrete inputs *)

(** A library whose decoder keeps no state: [answer] gives the bytes used
    and [frame_available] for a packet, the frame is the buffer of the
    packet, and the resampler hands its input on. *)
Definition stateless_lib (c : AVFormatContext) (answer : AVPacket -> Z * Z)
  : Libav :=
  mkLibav unit unit unit
    (fun _ => (0, c))
    (fun c' => (0, c'))
    (fun _ => Some tt)
    (fun _ _ => (0, tt))
    (fun n => if n =? 1 then 4 else if n =? 2 then 3 else 0)
    (fun _ => (0, tt))
    (fun d fr p =>
       (fst (answer p), snd (answer p),
        mkFrame (pkt_buf p) (size p) 4 44100 AV_SAMPLE_FMT_S16, tt))
    (fun r out inp => (0, inp, r)).

(** Raw PCM: every packet is used up and gives a frame. *)
Definition pcm_lib (c : AVFormatContext) : Libav :=
  stateless_lib c (fun p => (size p, 1)).

(** A decoder that uses no byte and gives no frame. *)
Definition stalled_lib (c : AVFormatContext) : Libav :=
  stateless_lib c (fun _ => (0, 0)).

(** The loop of [stalled_lib] on [one_frame_file] with the packet read. *)
Definition stalled_state : LoopState (stalled_lib one_frame_file) :=
  @mkLoop (stalled_lib one_frame_file)
    (mkFormat (streams one_frame_file) []) tt tt
    (delivered (mkUnit 0 [Byte.x01; Byte.x01]))
    av_frame_alloc 0 0 AudioData_new [].

(** A file whose first packet is empty and whose second packet is not. *)
Definition gap_file : AVFormatContext :=
  mkFormat [mkStream 0 pcm_mono]
           [mkUnit 0 []; mkUnit 0 [Byte.x01; Byte.x01]].

(** Thirteen numeric fields, the first twelve as a profile argument, and
    the values of those twelve. *)
Definition thirteen_fields : list string :=
  ["1"; "2"; "3"; "4"; "5"; "6"; "7"; "8"; "9"; "10"; "11"; "12"; "13"]
  %string.

Definition twelve_fields : string := "1,2,3,4,5,6,7,8,9,10,11,12".

Definition twelve_values : list spec_float :=
  map (fun n => double n 0) [1; 2; 3; 4; 5; 6; 7; 8; 9; 10; 11; 12].

(** The options of [main] before the first one is handled, with notations
    taken to be numbers, and after [-j twelve_fields]. *)
Definition default_options : Options Z :=
  mkOptions 0 (replicate SEMITONES (S754_zero false)) [] [].

Definition custom_options : Options Z :=
  mkOptions 0 twelve_values (weighted_profile twelve_values) [].

(** Two notation tables by name. *)
Definition two_notations : gmap string Z :=
  <["openkey"%string := 2]> {["camelot"%string := 1]}.

(** The library [lib] with another [avresample_convert_frame], and a loop
    state of [lib] as a state of that library. *)
Definition with_converter (lib : Libav)
    (convert : Resampler lib -> AVFrame -> AVFrame
               -> Z * AVFrame * Resampler lib) : Libav :=
  mkLibav (Decoder lib) (Resampler lib) (AVCodec lib)
    (avformat_open_input lib) (avformat_find_stream_info lib)
    (avcodec_find_decoder lib) (avcodec_open2 lib)
    (av_get_default_channel_layout lib) (avresample_open lib)
    (avcodec_decode_audio4 lib) convert.

Definition retag {lib : Libav} convert (st : LoopState lib)
  : LoopState (with_converter lib convert) :=
  @mkLoop (with_converter lib convert)
    (format_ctx st) (decoder st) (resampler st) (packet st) (audio_frame st)
    (current_packet_offset st) (back_packet_count st) (audio st) (trace st).

(** A converter that fails on every frame. *)
Definition failing_converter
  : unit -> AVFrame -> AVFrame -> Z * AVFrame * unit :=
  fun r _ inp => (-1, inp, r).

(** * Properties *)

(** ** Integer conversions *)

Lemma to_unsigned_small x : 0 <= x < 2 ^ 32 -> to_unsigned x = x.
Proof. intros H. unfold to_unsigned. now apply Z.mod_small. Qed.

Lemma to_unsigned_range x : 0 <= to_unsigned x < 2 ^ 32.
Proof. unfold to_unsigned. apply Z.mod_pos_bound. lia. Qed.

Lemma to_unsigned_to_int x : to_unsigned (to_int x) = to_unsigned x.
Proof.
  unfold to_int, to_unsigned.
  destruct (x mod 2 ^ 32 <? 2 ^ 31).
  - apply Z.mod_mod. lia.
  - rewrite <- (Z.mod_mod x (2 ^ 32)) at 2 by lia.
    rewrite <- Zminus_mod_idemp_r. rewrite Z.mod_same by lia.
    now rewrite Z.sub_0_r.
Qed.

Lemma to_unsigned_idem x : to_unsigned (to_unsigned x) = to_unsigned x.
Proof. unfold to_unsigned. apply Z.mod_mod. lia. Qed.



(** ** Stream selection *)

Lemma is_audio_true t : is_audio t = true <-> t = AVMEDIA_TYPE_AUDIO.
Proof. destruct t; simpl; split; congruence. Qed.

Lemma is_audio_false t : is_audio t = false <-> t <> AVMEDIA_TYPE_AUDIO.
Proof. destruct t; simpl; split; congruence. Qed.

Lemma find_audio_stream_some ss s :
  find_audio_stream ss = Some s ->
  exists before after,
    ss = before ++ s :: after /\ Forall not_audio before /\
    codec_type (codec s) = AVMEDIA_TYPE_AUDIO.
Proof.
  induction ss as [|x ss IH]; simpl; [discriminate|].
  destruct (is_audio (codec_type (codec x))) eqn:E.
  - intros [= <-]. exists [], ss. repeat split; [constructor|].
    now apply is_audio_true.
  - intros H. destruct (IH H) as (b & a & -> & Hb & Ha).
    exists (x :: b), a. repeat split; [|exact Ha].
    constructor; [now apply is_audio_false | exact Hb].
Qed.

Lemma find_audio_stream_none ss :
  find_audio_stream ss = None -> Forall not_audio ss.
Proof.
  induction ss as [|x ss IH]; simpl; [constructor|].
  destruct (is_audio (codec_type (codec x))) eqn:E; [discriminate|].
  intros H. constructor; [now apply is_audio_false | auto].
Qed.

(** ** Errors of the loop *)

Section LoopFacts.

Variable lib : Libav.

Lemma iteration_throw fuel cc s st e st' :
  iteration lib fuel cc s st = Throw e st' -> before_loop e = false.
Proof.
  unfold iteration, bad_packet.
  destruct (refill lib fuel s st) as [[[] st1]|]; try discriminate.
  destruct (avcodec_decode_audio4 lib _ _ _) as [[[n got] fr] d].
  repeat case_match; intros; simplify_eq; reflexivity.
Qed.

Lemma decode_loop_throw fuel cc s st e st' :
  decode_loop lib fuel cc s st = LoopThrew e st' -> before_loop e = false.
Proof.
  revert st. induction fuel as [|fuel IH]; intros st; simpl; [discriminate|].
  destruct (iteration lib fuel cc s st) eqn:E; try discriminate.
  - apply IH.
  - intros [= <- <-]. eapply iteration_throw, E.
Qed.

End LoopFacts.

(** ** Appending a frame *)

Lemma write_samples_channels d n : forall i a,
  ad_channels (write_samples d i n a) = ad_channels a /\
  ad_frameRate (write_samples d i n a) = ad_frameRate a.
Proof.
  induction n as [|n IH]; intros i a; simpl; [easy|].
  destruct (IH (S i) (advanceWriteIterator 1
    (setSampleAtWriteIterator (to_float (int16_at d i)) a))) as [-> ->].
  easy.
Qed.

(** The write loop overwrites the [n] slots from the write position on
    with the samples numbered [i], [i+1], ... and touches nothing else. *)
Lemma write_samples_spec d n : forall i a,
  (ad_writeIterator a + n <= length (ad_samples a))%nat ->
  ad_samples (write_samples d i n a) =
    take (ad_writeIterator a) (ad_samples a)
    ++ map (fun k => to_float (int16_at d k)) (seq i n)
    ++ drop (ad_writeIterator a + n) (ad_samples a).
Proof.
  induction n as [|n IH]; intros i a Hlen; simpl.
  - now rewrite Nat.add_0_r, take_drop.
  - rewrite IH; simpl; rewrite ?length_insert;
      change (Z.to_nat (to_unsigned 1)) with 1%nat; [|lia].
    replace (ad_writeIterator a + 1)%nat with (S (ad_writeIterator a)) by lia.
    rewrite (take_S_r _ _ (to_float (int16_at d i)))
      by (apply list_lookup_insert_eq; lia).
    rewrite take_insert_ge by lia.
    rewrite drop_insert_lt by lia.
    rewrite <- app_assoc. simpl.
    now replace (S (ad_writeIterator a + n))
      with (ad_writeIterator a + S n)%nat by lia.
Qed.

Lemma sample_count_range f : 0 <= sample_count f < 2 ^ 32.
Proof. apply to_unsigned_range. Qed.

(** As long as the new count stays below 2^32 the frame lands at the end
    and nothing before it changes. *)
Lemma append_frame_at_end f a :
  Z.of_nat (length (ad_samples a)) + sample_count f < 2 ^ 32 ->
  ad_samples (append_frame f a) = ad_samples a ++ frame_samples f.
Proof.
  intros H. pose proof (sample_count_range f) as Hn.
  assert (Hc : getSampleCount a = Z.of_nat (length (ad_samples a)))
    by (apply to_unsigned_small; lia).
  assert (Hw : ad_writeIterator
            (advanceWriteIterator (to_int (getSampleCount a))
               (resetIterators (addToSampleCount (sample_count f) a)))
          = length (ad_samples a)).
  { simpl. rewrite to_unsigned_to_int, Hc, to_unsigned_small by lia. lia. }
  assert (Hs : ad_samples
            (advanceWriteIterator (to_int (getSampleCount a))
               (resetIterators (addToSampleCount (sample_count f) a)))
          = ad_samples a
            ++ replicate (Z.to_nat (sample_count f)) (S754_zero false)).
  { simpl. rewrite Hc, to_unsigned_small by lia.
    rewrite resize_ge by lia. do 2 f_equal. lia. }
  unfold append_frame.
  rewrite write_samples_spec; rewrite Hw, Hs.
  - rewrite take_app_length.
    rewrite drop_ge by (rewrite length_app, length_replicate; lia).
    now rewrite app_nil_r.
  - rewrite length_app, length_replicate. lia.
Qed.

Lemma append_frame_meta f a :
  ad_channels (append_frame f a) = ad_channels a /\
  ad_frameRate (append_frame f a) = ad_frameRate a.
Proof.
  unfold append_frame.
  match goal with
  | |- context [write_samples ?d ?i ?n ?x] =>
      destruct (write_samples_channels d n i x) as [-> ->]
  end.
  easy.
Qed.


(** ** Traces *)

Lemma bad_decodes_snoc t ev :
  bad_decodes (t ++ [ev]) =
    (bad_decodes t + if is_bad_decode ev then 1 else 0)%nat.
Proof.
  unfold bad_decodes. rewrite List.filter_app, length_app. simpl.
  now destruct (is_bad_decode ev).
Qed.

Lemma produced_snoc t ev :
  produced (t ++ [ev]) = (produced t + if is_produced ev then 1 else 0)%nat.
Proof.
  unfold produced. rewrite List.filter_app, length_app. simpl.
  now destruct (is_produced ev).
Qed.

Lemma appended_app t1 t2 : appended (t1 ++ t2) = appended t1 ++ appended t2.
Proof.
  induction t1 as [|[] t1 IH]; simpl; auto. now rewrite IH.
Qed.

Lemma ends_bad_snoc t ev : ends_bad (t ++ [ev]) = is_bad_decode ev.
Proof. unfold ends_bad. now rewrite last_snoc. Qed.

Lemma refetch_after_bad_snoc t ev :
  refetch_after_bad t ->
  (ends_bad t = true -> exists p, ev = EvRead p) ->
  refetch_after_bad (t ++ [ev]).
Proof.
  induction t as [|x t IH]; intros Ht Hev; simpl.
  - split; [now destruct (is_bad_decode ev)|exact I].
  - destruct Ht as [Hx Ht]. split.
    + destruct (is_bad_decode x) eqn:Ex; [|exact I].
      destruct t as [|y t]; simpl.
      * destruct Hev as [p ->]; [|exact I].
        unfold ends_bad. simpl. exact Ex.
      * exact Hx.
    + apply IH; [exact Ht|].
      intros Hb. apply Hev. destruct t; [discriminate|exact Hb].
Qed.

Lemma total_samples_snoc fs f :
  total_samples (fs ++ [f]) = total_samples fs + sample_count f.
Proof. induction fs as [|x fs IH]; simpl; lia. Qed.

Lemma total_samples_nonneg fs : 0 <= total_samples fs.
Proof.
  induction fs as [|x fs IH]; simpl; [lia|].
  pose proof (to_unsigned_range (Z.quot (linesize0 x) 2)).
  unfold sample_count. lia.
Qed.

Lemma samples_of_snoc fs f :
  samples_of (fs ++ [f]) = samples_of fs ++ frame_samples f.
Proof.
  unfold samples_of. rewrite map_app, concat_app. simpl.
  now rewrite app_nil_r.
Qed.

Lemma length_samples_of fs :
  Z.of_nat (length (samples_of fs)) = total_samples fs.
Proof.
  induction fs as [|x fs IH]; [reflexivity|].
  unfold samples_of in *. simpl. rewrite length_app, Nat2Z.inj_add, IH.
  unfold frame_samples. rewrite length_map, length_seq.
  pose proof (to_unsigned_range (Z.quot (linesize0 x) 2)).
  unfold sample_count in *. lia.
Qed.

Lemma accumulated_same a0 a t ev :
  (forall f, ev <> EvAppend f) ->
  accumulated a0 a t -> accumulated a0 a (t ++ [ev]).
Proof.
  intros Hev H. unfold accumulated. rewrite appended_app.
  destruct ev; simpl; rewrite ?app_nil_r; try exact H.
  now destruct (Hev f).
Qed.

Lemma accumulated_append a0 a t f :
  accumulated a0 a t ->
  accumulated a0 (append_frame f a) (t ++ [EvAppend f]).
Proof.
  intros (Hr & Hc & Hs).
  destruct (append_frame_meta f a) as [Ec Er].
  pose proof (sample_count_range f) as Hn.
  pose proof (total_samples_nonneg (appended t)) as Ht.
  unfold accumulated. rewrite appended_app. simpl.
  rewrite total_samples_snoc, samples_of_snoc.
  repeat split; try congruence.
  intros Hle. rewrite append_frame_at_end; rewrite Hs by lia.
  - now rewrite app_assoc.
  - rewrite length_app, Nat2Z.inj_add, length_samples_of. lia.
Qed.

(** ** Invariants of the loop *)

Section LoopInvariants.

Variable lib : Libav.
Variable codec_context : AVCodecContext.
Variable audio_stream : AVStream.

(** A property kept by every round holds wherever the loop stops. *)
Lemma decode_loop_invariant (P : LoopState lib -> Prop)
    (Q : LoopOutcome lib -> Prop) :
  (forall fuel st st', P st ->
     iteration lib fuel codec_context audio_stream st = Continue st' ->
     P st') ->
  (forall fuel st st', P st ->
     iteration lib fuel codec_context audio_stream st = Break st' ->
     Q (LoopReturned st')) ->
  (forall fuel st e st', P st ->
     iteration lib fuel codec_context audio_stream st = Throw e st' ->
     Q (LoopThrew e st')) ->
  (forall st, P st -> Q (LoopOutOfFuel st)) ->
  forall fuel st, P st ->
    Q (decode_loop lib fuel codec_context audio_stream st).
Proof.
  intros Hc Hb Ht Ho fuel.
  induction fuel as [|fuel IH]; intros st HP; simpl; [now apply Ho|].
  destruct (iteration lib fuel codec_context audio_stream st) eqn:E.
  - apply IH. eapply Hc; eauto.
  - eapply Hb; eauto.
  - eapply Ht; eauto.
  - now apply Ho.
Qed.

(** What [refill] leaves behind: either nothing happened and bytes remain,
    or a packet was read and logged. *)
Lemma refill_cases fuel st b st1 :
  refill lib fuel audio_stream st = Some (b, st1) ->
  (b = false /\ st1 = st /\ current_packet_offset st < size (packet st)) \/
  (exists c p,
     size (packet st) <= current_packet_offset st /\
     read fuel (format_ctx st) (packet st) (index audio_stream)
       = Some (c, p) /\
     b = (size p <=? 0) /\
     st1 = mkLoop c (decoder st) (resampler st) p (audio_frame st) 0
                  (back_packet_count st) (audio st)
                  (trace st ++ [EvRead p])).
Proof.
  unfold refill.
  destruct (size (packet st) <=? current_packet_offset st) eqn:E.
  - destruct (read fuel _ _ _) as [[c p]|]; [|discriminate].
    intros [= <- <-]. right. exists c, p.
    repeat split; auto. lia.
  - intros [= <- <-]. left. repeat split. lia.
Qed.

(** The state in which the decoder has answered: its state and the frame
    are stored and the call is logged. *)
Lemma iteration_cases fuel st r :
  iteration lib fuel codec_context audio_stream st = r ->
  r = Stuck \/
  exists b st1,
    refill lib fuel audio_stream st = Some (b, st1) /\
    ((b = true /\ r = Break st1) \/
     (b = false /\
      exists n got fr dec,
        avcodec_decode_audio4 lib (decoder st1) (audio_frame st1) (packet st1)
          = (n, got, fr, dec) /\
        let st2 := mkLoop (format_ctx st1) dec (resampler st1) (packet st1)
                     fr (current_packet_offset st1) (back_packet_count st1)
                     (audio st1)
                     (trace st1 ++ [EvDecode (packet st1) n got]) in
        (n < 0 /\ r = bad_packet lib st2) \/
        (0 <= n /\ got = 0 /\ r = Continue (seek_packet lib n st2)) \/
        (0 <= n /\ got <> 0 /\
         exists st4,
           (normalize lib codec_context (seek_packet lib n st2) = inr st4 /\
            r = Throw ResampleConvertError st4) \/
           (normalize lib codec_context (seek_packet lib n st2) = inl st4 /\
            r = Continue (populate lib st4))))).
Proof.
  unfold iteration. intros <-.
  destruct (refill lib fuel audio_stream st) as [[b st1]|]; [|now left].
  right. exists b, st1. split; [reflexivity|].
  destruct b; [left; easy|right]. split; [reflexivity|].
  destruct (avcodec_decode_audio4 lib _ _ _) as [[[n got] fr] dec].
  exists n, got, fr, dec. split; [reflexivity|]. cbv zeta. unfold log.
  destruct (n <? 0) eqn:En.
  - left. split; [lia|reflexivity].
  - right. destruct (got =? 0) eqn:Eg.
    + left. repeat split; [lia|lia].
    + right. repeat split; [lia|lia|].
      destruct (normalize lib codec_context _) as [st4|st4] eqn:E4;
        exists st4; [right|left]; easy.
Qed.

(** Normalising touches the resampler and the frame only. *)
Lemma normalize_frame st r :
  normalize lib codec_context st = r ->
  let st' := match r with inl x | inr x => x end in
  format_ctx st' = format_ctx st /\ decoder st' = decoder st /\
  packet st' = packet st /\
  current_packet_offset st' = current_packet_offset st /\
  back_packet_count st' = back_packet_count st /\
  audio st' = audio st /\ trace st' = trace st.
Proof.
  unfold normalize. intros <-.
  destruct (negb _); [|easy].
  destruct (avresample_convert_frame lib _ _ _) as [[ret out] rs].
  destruct (ret <? 0); easy.
Qed.

Lemma counting_refill fuel st b st1 :
  counting st ->
  refill lib fuel audio_stream st = Some (b, st1) ->
  back_packet_count st1 = Z.of_nat (bad_decodes (trace st1)) /\
  (bad_decodes (trace st1) <= 100)%nat /\
  refetch_after_bad (trace st1) /\
  ends_bad (trace st1) = false.
Proof.
  intros (Hc & Hb & Hr & He) H.
  destruct (refill_cases _ _ _ _ H)
    as [(_ & -> & Hlt)|(c & p & _ & _ & _ & ->)].
  - repeat split; auto.
    destruct (ends_bad (trace st)); [|reflexivity].
    specialize (He eq_refl). lia.
  - simpl. rewrite bad_decodes_snoc, ends_bad_snoc. simpl.
    rewrite Nat.add_0_r. repeat split; auto.
    apply refetch_after_bad_snoc; eauto.
Qed.

Lemma counting_round fuel st :
  counting st ->
  match iteration lib fuel codec_context audio_stream st with
  | Continue st' => counting st'
  | Break st' => counted (LoopReturned st')
  | Throw e st' => counted (LoopThrew e st')
  | Stuck => True
  end.
Proof.
  intros Hst.
  destruct (iteration_cases fuel st _ eq_refl) as [->|(b & st1 & Hre & H)];
    [exact I|].
  destruct (counting_refill _ _ _ _ Hst Hre) as (Hc & Hb & Hr & He).
  destruct H as [[-> ->]|(-> & n & got & fr & dec & _ & H)]; [easy|].
  cbv zeta in H.
  assert (Hr2 : refetch_after_bad (trace st1 ++ [EvDecode (packet st1) n got])).
  { apply refetch_after_bad_snoc; [exact Hr|]. rewrite He. discriminate. }
  destruct H as [[Hn ->]|[(Hn & _ & ->)|(Hn & _ & st4 & [[H4 ->]|[H4 ->]])]].
  - (* rejected *)
    unfold bad_packet.
    assert (Ebad : bad_decodes (trace st1 ++ [EvDecode (packet st1) n got])
                   = S (bad_decodes (trace st1))).
    { rewrite bad_decodes_snoc. simpl.
      destruct (n <? 0) eqn:E; lia. }
    assert (Eend : ends_bad (trace st1 ++ [EvDecode (packet st1) n got])
                   = true).
    { rewrite ends_bad_snoc. simpl. lia. }
    destruct (Z.gtb _ _) eqn:E; unfold BAD_PACKET_THRESHOLD in E;
      simpl in E |- *; unfold counting; simpl; rewrite Ebad.
    + repeat split; auto; lia.
    + repeat split; auto; lia.
  - (* no frame yet *)
    unfold counting. simpl. rewrite bad_decodes_snoc, ends_bad_snoc. simpl.
    destruct (n <? 0) eqn:E; [lia|]. rewrite Nat.add_0_r.
    repeat split; auto. discriminate.
  - (* the resampler failed *)
    destruct (normalize_frame _ _ H4) as (_ & _ & _ & _ & Hk & _ & Ht).
    simpl in Hk, Ht |- *. rewrite Hk, Ht, bad_decodes_snoc. simpl.
    destruct (n <? 0) eqn:E; [lia|]. rewrite Nat.add_0_r.
    repeat split; auto.
  - (* a frame was appended *)
    destruct (normalize_frame _ _ H4) as (_ & _ & _ & _ & Hk & _ & Ht).
    unfold counting. simpl in Hk, Ht |- *.
    rewrite Hk, Ht, !bad_decodes_snoc, ends_bad_snoc. simpl.
    destruct (n <? 0) eqn:E; [lia|]. rewrite !Nat.add_0_r.
    repeat split; auto; [|discriminate].
    apply refetch_after_bad_snoc; [exact Hr2|].
    rewrite ends_bad_snoc. simpl. rewrite E. discriminate.
Qed.

Lemma counting_initial c dec rs a : counting (initial_state lib c dec rs a).
Proof.
  unfold counting, bad_decodes, ends_bad. simpl.
  repeat split; [lia|discriminate].
Qed.

Lemma decode_loop_counted fuel st :
  counting st ->
  counted (decode_loop lib fuel codec_context audio_stream st).
Proof.
  apply (decode_loop_invariant counting counted).
  - intros f s s' Hs E. pose proof (counting_round f s Hs) as H.
    now rewrite E in H.
  - intros f s s' Hs E. pose proof (counting_round f s Hs) as H.
    now rewrite E in H.
  - intros f s e s' Hs E. pose proof (counting_round f s Hs) as H.
    now rewrite E in H.
  - intros s (Hc & Hb & Hr & _). simpl. auto.
Qed.

Lemma accumulating_round a0 fuel st :
  accumulating a0 st ->
  match iteration lib fuel codec_context audio_stream st with
  | Continue st' | Break st' => accumulating a0 st'
  | Throw e st' => accumulated a0 (audio st') (trace st')
  | Stuck => True
  end.
Proof.
  intros Hst.
  destruct (iteration_cases fuel st _ eq_refl) as [->|(b & st1 & Hre & H)];
    [exact I|].
  assert (H1 : accumulating a0 st1).
  { destruct (refill_cases _ _ _ _ Hre)
      as [(_ & -> & _)|(c & p & _ & _ & _ & ->)]; [exact Hst|].
    destruct Hst as [Ha Hp]. split; simpl.
    - apply accumulated_same; [discriminate|exact Ha].
    - rewrite produced_snoc, appended_app. simpl.
      rewrite app_nil_r. lia. }
  destruct H as [[-> ->]|(-> & n & got & fr & dec & _ & H)]; [exact H1|].
  cbv zeta in H. destruct H1 as [Ha Hp].
  assert (Ha2 : accumulated a0 (audio st1)
                  (trace st1 ++ [EvDecode (packet st1) n got])).
  { apply accumulated_same; [discriminate|exact Ha]. }
  assert (Hap : appended (trace st1 ++ [EvDecode (packet st1) n got])
                = appended (trace st1)).
  { rewrite appended_app. simpl. apply app_nil_r. }
  destruct H as [[Hn ->]|[(Hn & Hg & ->)|(Hn & Hg & st4 & [[H4 ->]|[H4 ->]])]].
  - unfold bad_packet. destruct (Z.gtb _ _); [exact Ha2|].
    split; simpl; [exact Ha2|].
    rewrite produced_snoc, Hap. simpl.
    destruct (n <? 0) eqn:E; simpl; lia.
  - split; simpl; [exact Ha2|].
    rewrite produced_snoc, Hap. simpl. subst got.
    rewrite andb_false_r. lia.
  - destruct (normalize_frame _ _ H4) as (_ & _ & _ & _ & _ & Hau & Ht).
    simpl in Hau, Ht. now rewrite Hau, Ht.
  - destruct (normalize_frame _ _ H4) as (_ & _ & _ & _ & _ & Hau & Ht).
    simpl in Hau, Ht. split; simpl; rewrite Ht.
    + rewrite Hau. now apply accumulated_append.
    + rewrite !produced_snoc, !appended_app, length_app. simpl.
      rewrite app_nil_r.
      destruct (n <? 0) eqn:E; [lia|].
      destruct (got =? 0) eqn:E'; [lia|]. simpl. lia.
Qed.

Lemma accumulating_initial c dec rs a :
  accumulating a (initial_state lib c dec rs a).
Proof.
  unfold accumulating, accumulated. simpl.
  repeat split. intros _. now rewrite app_nil_r.
Qed.

Lemma decode_loop_accumulated a0 fuel st :
  accumulating a0 st ->
  match decode_loop lib fuel codec_context audio_stream st with
  | LoopReturned st' | LoopOutOfFuel st' => accumulating a0 st'
  | LoopThrew e st' => accumulated a0 (audio st') (trace st')
  end.
Proof.
  apply (decode_loop_invariant (accumulating a0)
           (fun o => match o with
                     | LoopReturned st' | LoopOutOfFuel st' =>
                         accumulating a0 st'
                     | LoopThrew e st' =>
                         accumulated a0 (audio st') (trace st')
                     end)).
  - intros f s s' Hs E. pose proof (accumulating_round a0 f s Hs) as H.
    now rewrite E in H.
  - intros f s s' Hs E. pose proof (accumulating_round a0 f s Hs) as H.
    now rewrite E in H.
  - intros f s e s' Hs E. pose proof (accumulating_round a0 f s Hs) as H.
    now rewrite E in H.
  - easy.
Qed.

End LoopInvariants.

(** ** The whole call *)

Lemma derive_channel_layout_fields default cc :
  without_layout (derive_channel_layout default cc) = without_layout cc.
Proof.
  unfold derive_channel_layout. now destruct (channel_layout cc =? 0).
Qed.

Lemma derive_channel_layout_rate default cc :
  sample_rate (derive_channel_layout default cc) = sample_rate cc /\
  channels (derive_channel_layout default cc) = channels cc /\
  sample_fmt (derive_channel_layout default cc) = sample_fmt cc.
Proof.
  unfold derive_channel_layout. now destruct (channel_layout cc =? 0).
Qed.

(** A call either throws one of the six early errors, with the accumulator
    as it was, or it selects a stream, opens the resampler on the options
    derived from that stream, stores rate and channel count, and runs the
    loop. *)
Lemma fill_audio_data_cases lib fuel file_path a :
  (exists e,
     before_loop e = true /\
     fill_audio_data lib fuel file_path a = Threw e a [] /\
     (e = NoAudioStreamError -> selected_stream lib file_path = None)) \/
  (exists s c dec r rs,
     selected_stream lib file_path = Some s /\
     let cc := derive_channel_layout (av_get_default_channel_layout lib)
                                     (codec s) in
     avresample_open lib (configure_resampler cc) = (r, rs) /\ 0 <= r /\
     fill_audio_data lib fuel file_path a =
       outcome_of
         (decode_loop lib fuel cc s
            (initial_state lib c dec rs
               (setChannels (to_unsigned (channels (codec s)))
                  (setFrameRate (to_unsigned (sample_rate (codec s))) a))))).
Proof.
  unfold fill_audio_data, selected_stream.
  destruct (avformat_open_input lib file_path) as [r1 c1]. simpl.
  destruct (r1 <? 0) eqn:E1;
    [left; exists OpenError; repeat split; discriminate|].
  destruct (avformat_find_stream_info lib c1) as [r2 c2]. simpl.
  destruct (r2 <? 0) eqn:E2;
    [left; exists ProbeError; repeat split; discriminate|].
  destruct (find_audio_stream (streams c2)) as [s|];
    [|left; exists NoAudioStreamError; repeat split].
  destruct (avcodec_find_decoder lib (codec_id (codec s))) as [cd|];
    [|left; exists UnsupportedCodecError; repeat split; discriminate].
  destruct (avcodec_open2 lib (codec s) cd) as [r3 dec].
  destruct (r3 <? 0) eqn:E3;
    [left; exists CodecOpenError; repeat split; discriminate|].
  destruct (avresample_open lib _) as [r4 rs] eqn:E4.
  destruct (r4 <? 0) eqn:E5;
    [left; exists ResampleOpenError; repeat split; discriminate|].
  right. exists s, c2, dec, r4, rs. cbv zeta.
  destruct (derive_channel_layout_rate (av_get_default_channel_layout lib)
              (codec s)) as (-> & -> & _).
  repeat split; [exact E4|lia].
Qed.

(** ** The packet cursor *)

(** After a decode that used [n >= 0] bytes the packet is moved on by the
    running total [current_packet_offset + n], not by [n]. *)
Lemma seek_packet_cursor lib n (st : LoopState lib) d :
  data (packet st) = Some d ->
  let st' := seek_packet lib n st in
  data (packet st') = Some (d + (current_packet_offset st + n)) /\
  size (packet st') = size (packet st) - (current_packet_offset st + n) /\
  current_packet_offset st' = current_packet_offset st + n.
Proof. intros H. simpl. now rewrite H. Qed.

(** C1 (the code departs from the claim).  The claim: after a decode that
    used [n >= 0] bytes the cursor of the current packet advances by exactly
    [n], and bytes left over are presented to the next call.  On a packet of
    100 bytes whose decoder uses 10 bytes per call, the four calls are
    presented the ranges starting at 0, 10, 30 and 60 with 100, 90, 70 and
    40 bytes left: the second call's 10 bytes move the cursor by 20, the
    third's by 30, bytes 20-29 and 40-59 are skipped, and after the fourth
    call the last 30 bytes are dropped by a new read. *)
Theorem cursor_advances_by_running_total :
  let presented d n := mkPacket (replicate 100 Byte.x00) (Some d) n 0 in
  fill_audio_data partial_lib 10 "partial.wav" AudioData_new =
    Returned (mkAudio [] 1 44100 0%nat 0%nat)
      [ EvRead (presented 0 100);
        EvDecode (presented 0 100) 10 0;
        EvDecode (presented 10 90) 10 0;
        EvDecode (presented 30 70) 10 0;
        EvDecode (presented 60 40) 10 0;
        EvRead (mkPacket [] None 0 0) ].
Proof. vm_compute. reflexivity. Qed.

(** ** The packet reader *)

(** With matching units left, [read] returns the first of them and drops
    the units before it. *)
Lemma read_finds_unit target before u after ss p :
  Forall (fun x => unit_stream x <> target) before ->
  unit_stream u = target ->
  read (S (length before)) (mkFormat ss (before ++ u :: after)) p target =
    Some (mkFormat ss after,
          mkPacket (unit_payload u) (Some 0)
                   (Z.of_nat (length (unit_payload u))) target).
Proof.
  intros Hb Hu. revert p.
  induction Hb as [|x before Hx Hb IH]; intros p.
  - simpl. rewrite Hu, Z.eqb_refl. reflexivity.
  - cbn [length app]. remember (S (length before)) as k. simpl.
    apply Z.eqb_neq in Hx. rewrite Hx. subst k. apply IH.
Qed.

(** At the end of a container whose units all belong to other streams,
    [read] returns the blank packet when the target stream is stream 0. *)
Lemma read_end_of_stream_index0 ss p :
  read 1 (mkFormat ss []) p 0 =
    Some (mkFormat ss [], mkPacket [] None 0 0).
Proof. simpl. reflexivity. Qed.

(** Whatever a failed read does to the packet, the packet it is handed has
    [stream_index] 0 once it has held data: [av_packet_unref] resets it. *)
Lemma av_packet_unref_stream_index p : stream_index (av_packet_unref p) = 0.
Proof. reflexivity. Qed.

(** At the end of the container [read] never returns when the target
    stream is not stream 0: the failed read leaves [stream_index] 0, which
    is compared with the target, and the next round fails the same way. *)
Lemma read_spins fuel : forall c p target,
  pending c = [] -> target <> 0 -> read fuel c p target = None.
Proof.
  induction fuel as [|fuel IH]; intros c p target Hc Ht; [reflexivity|].
  cbn [read]. unfold av_read_frame. rewrite Hc.
  destruct target as [|t|t]; [lia|simpl; now apply IH..].
Qed.

(** Once [read] spins, the loop is stuck in the round that called it. *)
Lemma decode_loop_stuck lib fuel cc s (st : LoopState lib) :
  size (packet st) <= current_packet_offset st ->
  pending (format_ctx st) = [] ->
  index s <> 0 ->
  decode_loop lib fuel cc s st = LoopOutOfFuel st.
Proof.
  intros Hs Hp Hi. destruct fuel as [|fuel]; [reflexivity|].
  simpl. unfold iteration, refill.
  apply Z.leb_le in Hs. rewrite Hs.
  now rewrite read_spins.
Qed.

Lemma movie_first_round fuel cc :
  iteration movie_lib (S (S fuel)) cc (mkStream 1 pcm_mono)
    (initial_state movie_lib movie_file [] tt
       (mkAudio [] 1 44100 0%nat 0%nat))
  = Continue movie_state1.
Proof. reflexivity. Qed.

(** C8 (the code departs from the claim).  The claim: for every container
    and every target stream index [read] terminates, and at the end of the
    container the loop ends successfully.  For a file whose audio stream is
    the second stream (index 1), here one video packet and one audio packet,
    the call never returns: whatever the fuel, the model is still inside
    the loop, spinning in [read] at the end of the container. *)
Theorem read_never_returns_for_second_stream :
  forall fuel, exists a t,
    fill_audio_data movie_lib fuel "movie.mkv" AudioData_new = OutOfFuel a t.
Proof.
  intros fuel.
  destruct fuel as [|[|[|fuel]]];
    [eexists _, _; vm_compute; reflexivity..|].
  exists (audio movie_state1), (trace movie_state1).
  set (cc := derive_channel_layout (av_get_default_channel_layout movie_lib)
                                   pcm_mono).
  set (st0 := initial_state movie_lib movie_file [] tt
                (mkAudio [] 1 44100 0%nat 0%nat)).
  change (fill_audio_data movie_lib (S (S (S fuel))) "movie.mkv"
            AudioData_new)
    with (outcome_of
            (match iteration movie_lib (S (S fuel)) cc
                     (mkStream 1 pcm_mono) st0 with
             | Continue st' =>
                 decode_loop movie_lib (S (S fuel)) cc (mkStream 1 pcm_mono)
                             st'
             | Break st' => LoopReturned st'
             | Throw e st' => LoopThrew e st'
             | Stuck => LoopOutOfFuel st0
             end)).
  subst st0. rewrite movie_first_round.
  rewrite decode_loop_stuck; [reflexivity|..]; unfold movie_state1; simpl;
    first [reflexivity | lia].
Qed.

(** ** The command line *)

Section CommandLineFacts.

Variable lib : Libav.
Variable Notation : Type.
Variable mappings : gmap string Notation.
Variable standard : Notation.
Variable label : Notation -> Z -> string.
Variable SILENCE : Z.
Variable estimate_key :
  AudioData -> list spec_float -> list spec_float -> string + Z.
Variable stod : string -> option spec_float.

Let main' := main lib Notation mappings standard label SILENCE estimate_key
                  stod.

(** The paths of [main] that do what the specification says: a missing
    file name and an unknown notation exit with 1 and one line on the error
    stream; without options, a decode error exits with 1 and its message, an
    estimated key exits with 0 and its label, silence with 0 and no
    output. *)
Lemma main_exit_codes fuel argv0 name opts rest file_path :
  main' fuel argv0 [] [] = Exit 1 [] [usage argv0] /\
  (mappings !! name = None ->
   main' fuel argv0 (("n"%char, name) :: opts) rest
     = Exit 1 [] ["Invalid key notation"%string]) /\
  main' fuel argv0 [] (file_path :: rest) =
    match fill_audio_data lib fuel file_path AudioData_new with
    | OutOfFuel _ _ => Hangs
    | Threw e _ _ => Exit 1 [] [what e]
    | Returned a _ =>
        match estimate_key a (weighted_profile MAJOR_PROFILE)
                           (weighted_profile MINOR_PROFILE) with
        | inl msg => Exit 1 [] [msg]
        | inr key =>
            if key =? SILENCE then Exit 0 [] []
            else Exit 0 [label standard key] []
        end
    end.
Proof.
  repeat split.
  intros H. unfold main', main. simpl. now rewrite H.
Qed.

(** A profile whose first field is not a number: the exception of [stod]
    is thrown outside the [try] block and ends the program. *)
Lemma malformed_profile_terminates fuel argv0 arg first others opts rest :
  split arg "," = first :: others -> stod first = None ->
  main' fuel argv0 (("j"%char, arg) :: opts) rest = Terminated.
Proof.
  intros Hs Hf. unfold main', main. cbn [option_loop]. simpl Ascii.eqb.
  cbv iota. rewrite Hs. simpl. now rewrite Hf.
Qed.

(** C7 (the code departs from the claim).  The claim: exit code 0 on
    success and exit code 1 on every decode error and every argument error,
    with one line on the error stream.  When [getopt_long] reports an
    unknown option or a missing option argument (it returns '?'), [main]
    writes the usage line to the error stream and returns 0. *)
Theorem unknown_option_exits_zero fuel argv0 optarg opts rest :
  main' fuel argv0 (("?"%char, optarg) :: opts) rest
    = Exit 0 [] [usage argv0].
Proof. reflexivity. Qed.

End CommandLineFacts.

(** ** The comma splitter *)

Lemma getline_chars_length delim : forall ss item rest,
  getline_chars ss delim = (item, rest) ->
  (String.length rest <= String.length ss)%nat.
Proof.
  induction ss as [|c ss IH]; intros item rest; simpl.
  - intros [= <- <-]. simpl. lia.
  - destruct (Ascii.eqb c delim).
    + intros [= <- <-]. lia.
    + destruct (getline_chars ss delim) as [i r] eqn:E.
      intros [= <- <-]. specialize (IH _ _ eq_refl). lia.
Qed.

(** Fuel beyond the length of the stream changes nothing, so the bound in
    [split] loses no item. *)
Lemma split_loop_enough delim : forall f1 f2 ss,
  (String.length ss < f1)%nat -> (String.length ss < f2)%nat ->
  split_loop f1 ss delim = split_loop f2 ss delim.
Proof.
  induction f1 as [|f1 IH]; intros f2 ss H1 H2; [lia|].
  destruct f2 as [|f2]; [lia|]. simpl.
  destruct ss as [|c ss]; [reflexivity|]. unfold getline.
  destruct (getline_chars (String c ss) delim) as [item rest] eqn:E.
  f_equal. simpl in E.
  destruct (Ascii.eqb c delim).
  - injection E as <- <-. simpl in *. apply IH; lia.
  - destruct (getline_chars ss delim) as [i r] eqn:E'.
    injection E as <- <-.
    pose proof (getline_chars_length delim _ _ _ E') as Hl.
    simpl in *. apply IH; lia.
Qed.

Lemma parse_profile_in_bounds stod v : forall n s ps k,
  (s + n <= length v)%nat ->
  parse_profile stod v s n ps <> ParsedOutOfBounds k.
Proof.
  induction n as [|n IH]; intros s ps k H; simpl; [discriminate|].
  unfold vector_at.
  destruct (v !! s) as [item|] eqn:E.
  - destruct (stod item); [apply IH; lia|discriminate].
  - apply lookup_ge_None in E. lia.
Qed.

Lemma parse_profile_out_of_bounds stod v :
  (forall item, item ∈ v -> is_Some (stod item)) ->
  forall n s ps,
    (s <= length v)%nat -> (length v < s + n)%nat ->
    parse_profile stod v s n ps = ParsedOutOfBounds (length v).
Proof.
  intros Hok. induction n as [|n IH]; intros s ps H1 H2; [lia|].
  simpl. unfold vector_at.
  destruct (v !! s) as [item|] eqn:E.
  - pose proof (lookup_lt_Some _ _ _ E) as Hlt.
    destruct (Hok item) as [x ->]; [eapply list_elem_of_lookup_2, E|].
    apply IH; lia.
  - apply lookup_ge_None in E. f_equal. lia.
Qed.

(** C10.  For every argument of [-j] or [-i], the entries 0 to 11 of the
    split argument are read without a bounds check: all twelve reads are in
    bounds exactly when the argument splits into at least twelve fields;
    with twelve or more fields the loop never reads past the end; with
    fewer (and fields that all parse) the loop reads the entry just past
    the end; and there is such an argument. *)
Theorem profile_fields_read_without_bounds_check
    (stod : string -> option spec_float) (arg : string)
    (ps : list spec_float) :
  let profile_str := split arg "," in
  ((forall s, (s < SEMITONES)%nat -> is_Some (vector_at profile_str s)) <->
   (SEMITONES <= length profile_str)%nat) /\
  ((SEMITONES <= length profile_str)%nat ->
   forall s, parse_profile stod profile_str 0 SEMITONES ps
             <> ParsedOutOfBounds s) /\
  ((length profile_str < SEMITONES)%nat ->
   (forall item, item ∈ profile_str -> is_Some (stod item)) ->
   vector_at profile_str (length profile_str) = None /\
   parse_profile stod profile_str 0 SEMITONES ps
     = ParsedOutOfBounds (length profile_str)) /\
  (exists arg',
     (length (split arg' ",") < SEMITONES)%nat /\
     vector_at (split arg' ",") (length (split arg' ",")) = None).
Proof.
  intros profile_str. unfold vector_at. repeat split.
  - intros H. destruct (Nat.le_gt_cases SEMITONES (length profile_str))
      as [Hle|Hgt]; [exact Hle|].
    destruct (H (length profile_str) Hgt) as [x Hx].
    apply lookup_lt_Some in Hx. lia.
  - intros H s Hs. apply lookup_lt_is_Some. lia.
  - intros H s. apply parse_profile_in_bounds. simpl. exact H.
  - apply lookup_ge_None. lia.
  - apply parse_profile_out_of_bounds; [assumption|lia|simpl; lia].
  - exists "1,2,3"%string. split; [vm_compute; lia|reflexivity].
Qed.

(** An argument of three fields: the loop reads entry 3 of a vector of
    three. *)
Lemma profile_fields_read_without_bounds_check_witness :
  (length (split "1,2,3" ",") < SEMITONES)%nat /\
  parse_profile stod_digits (split "1,2,3" ",") 0 SEMITONES []
    = ParsedOutOfBounds 3.
Proof.
  assert (Hlen : (length (split "1,2,3" ",") < SEMITONES)%nat)
    by (vm_compute; lia).
  split; [exact Hlen|].
  destruct (profile_fields_read_without_bounds_check stod_digits "1,2,3" [])
    as (_ & _ & H & _).
  apply H; [exact Hlen|].
  intros item Hitem.
  apply list_elem_of_In in Hitem. vm_compute in Hitem.
  destruct Hitem as [<-|[<-|[<-|[]]]]; vm_compute; eauto.
Defined.

(** ** Stream selection and the pipeline *)

(** C6.  For an opened and probed source the stream selected is the first
    one, in container order, whose media type is audio: every stream before
    it has another type; it is the stream the pipeline goes on with, and the
    call does not fail with [NoAudioStreamError].  If no stream is audio the
    call fails with [NoAudioStreamError]. *)
Theorem first_audio_stream_selected lib fuel file_path a r1 c1 r2 c2 :
  avformat_open_input lib file_path = (r1, c1) -> 0 <= r1 ->
  avformat_find_stream_info lib c1 = (r2, c2) -> 0 <= r2 ->
  match find_audio_stream (streams c2) with
  | Some s =>
      (exists before after,
         streams c2 = before ++ s :: after /\
         Forall not_audio before /\
         codec_type (codec s) = AVMEDIA_TYPE_AUDIO) /\
      selected_stream lib file_path = Some s /\
      forall a' t,
        fill_audio_data lib fuel file_path a <> Threw NoAudioStreamError a' t
  | None =>
      Forall not_audio (streams c2) /\
      fill_audio_data lib fuel file_path a = Threw NoAudioStreamError a []
  end.
Proof.
  intros E1 H1 E2 H2.
  assert (Hsel : selected_stream lib file_path
                 = find_audio_stream (streams c2)).
  { unfold selected_stream. now rewrite E1; simpl; rewrite E2. }
  destruct (find_audio_stream (streams c2)) as [s|] eqn:E.
  - split; [now apply find_audio_stream_some|]. split; [exact Hsel|].
    intros a' t Hf.
    destruct (fill_audio_data_cases lib fuel file_path a)
      as [(e & _ & He & Hn)|(s' & c & dec & r & rs & _ & Hrun)].
    + rewrite He in Hf. injection Hf as -> _ _.
      rewrite Hn in Hsel by reflexivity. discriminate.
    + cbv zeta in Hrun. destruct Hrun as (_ & _ & Hrun).
      rewrite Hrun in Hf.
      destruct (decode_loop lib fuel _ s' _) eqn:El; try discriminate.
      injection Hf as -> _ _.
      now apply decode_loop_throw in El.
  - split; [now apply find_audio_stream_none|].
    unfold fill_audio_data. rewrite E1.
    destruct (r1 <? 0) eqn:L1; [lia|]. rewrite E2.
    destruct (r2 <? 0) eqn:L2; [lia|]. now rewrite E.
Qed.

(** In the video file the second stream is selected; the file without an
    audio stream is refused. *)
Lemma first_audio_stream_selected_witness :
  selected_stream movie_lib "movie.mkv" = Some (mkStream 1 pcm_mono) /\
  fill_audio_data silent_movie_lib 5 "silent.mkv" AudioData_new
    = Threw NoAudioStreamError AudioData_new [].
Proof.
  split.
  - exact (proj1 (proj2
      (first_audio_stream_selected movie_lib 5 "movie.mkv" AudioData_new
         0 movie_file 0 movie_file eq_refl ltac:(lia) eq_refl ltac:(lia)))).
  - exact (proj2
      (first_audio_stream_selected silent_movie_lib 5 "silent.mkv"
         AudioData_new 0 silent_movie_file 0 silent_movie_file
         eq_refl ltac:(lia) eq_refl ltac:(lia))).
Defined.

(** ** The resample context and the channel layout *)




(** ** Bad packets *)

(** The round in which the decoder rejects the packet. *)
Lemma bad_packet_round lib codec_context audio_stream fuel
    (st st1 : LoopState lib) n got fr dec :
  refill lib fuel audio_stream st = Some (false, st1) ->
  avcodec_decode_audio4 lib (decoder st1) (audio_frame st1) (packet st1)
    = (n, got, fr, dec) ->
  n < 0 ->
  exists st',
    audio st' = audio st /\
    format_ctx st' = format_ctx st1 /\
    back_packet_count st' = back_packet_count st + 1 /\
    trace st' = trace st1 ++ [EvDecode (packet st1) n got] /\
    if back_packet_count st <? 100
    then
      iteration lib fuel codec_context audio_stream st = Continue st' /\
      decode_loop lib (S fuel) codec_context audio_stream st
        = decode_loop lib fuel codec_context audio_stream st' /\
      size (packet st') = 0 /\ current_packet_offset st' = 0 /\
      forall f c p,
        read f (format_ctx st') (packet st') (index audio_stream)
          = Some (c, p) ->
        exists st2,
          refill lib f audio_stream st' = Some (size p <=? 0, st2) /\
          packet st2 = p /\ trace st2 = trace st' ++ [EvRead p]
    else
      iteration lib fuel codec_context audio_stream st
        = Throw TooManyBadPacketsError st' /\
      decode_loop lib (S fuel) codec_context audio_stream st
        = LoopThrew TooManyBadPacketsError st'.
Proof.
  intros Hr Hd Hn.
  assert (H1 : audio st1 = audio st /\
               back_packet_count st1 = back_packet_count st).
  { destruct (refill_cases lib audio_stream _ _ _ _ Hr)
      as [(_ & -> & _)|(c & p & _ & _ & _ & ->)]; now split. }
  destruct H1 as [Ha Hc].
  cbn [decode_loop]. unfold iteration. rewrite Hr, Hd.
  apply Z.ltb_lt in Hn. rewrite Hn.
  unfold bad_packet, log.
  cbn [format_ctx decoder resampler packet audio_frame
       current_packet_offset back_packet_count audio trace].
  rewrite Hc, Ha. unfold BAD_PACKET_THRESHOLD.
  destruct (back_packet_count st <? 100) eqn:E.
  - apply Z.ltb_lt in E.
    destruct (back_packet_count st + 1 >? 100) eqn:E'; [lia|].
    eexists. split; [|split; [|split; [|split]]]; cycle 4.
    { split; [reflexivity|]. split; [reflexivity|].
      split; [reflexivity|]. split; [reflexivity|].
      cbn [format_ctx packet trace]. intros f c p Hread.
      unfold refill.
      cbn [format_ctx decoder resampler packet audio_frame
           current_packet_offset back_packet_count audio trace size].
      change (0 <=? 0) with true. cbv iota. rewrite Hread.
      eexists. split; [reflexivity|]. split; reflexivity. }
    all: reflexivity.
  - apply Z.ltb_ge in E.
    destruct (back_packet_count st + 1 >? 100) eqn:E'; [|lia].
    eexists. split; [|split; [|split; [|split]]]; cycle 4.
    { split; reflexivity. }
    all: reflexivity.
Qed.

(** C2.  For every file and every behaviour of the library.  At whatever
    point the run is looked at, the counter equals the number of packets
    the decoder has rejected since the loop started (one increment per
    rejection, never a reset), every rejection that was tolerated is
    followed at once by a fresh read, with up to 100 rejections
    [TooManyBadPacketsError] has not been thrown, and when it is thrown the
    trace holds exactly 101 rejections, the last event being the 101st; the
    first part is about the loop from its initial state, the second about
    the whole call.  And in every round in which the decoder rejects the
    packet the counter goes up by one and the accumulator stays as it is;
    with the counter below 100 before, the loop goes on with the next
    round, the rest of the packet is dropped and that round reads the next
    packet of the stream; with the counter at 100, the round and with it
    the loop end in [TooManyBadPacketsError]. *)
Theorem bad_packets_tolerated_up_to_threshold lib fuel file_path a :
  (forall codec_context audio_stream c dec rs,
     match decode_loop lib fuel codec_context audio_stream
                       (initial_state lib c dec rs a) with
     | LoopThrew TooManyBadPacketsError st =>
         bad_decodes (trace st) = 101%nat /\
         back_packet_count st = 101 /\
         ends_bad (trace st) = true /\
         refetch_after_bad (trace st)
     | LoopThrew _ st | LoopReturned st | LoopOutOfFuel st =>
         back_packet_count st = Z.of_nat (bad_decodes (trace st)) /\
         (bad_decodes (trace st) <= 100)%nat /\
         refetch_after_bad (trace st)
     end) /\
  match fill_audio_data lib fuel file_path a with
  | Threw TooManyBadPacketsError _ t =>
      bad_decodes t = 101%nat /\ ends_bad t = true /\ refetch_after_bad t
  | Threw _ _ t | Returned _ t | OutOfFuel _ t =>
      (bad_decodes t <= 100)%nat /\ refetch_after_bad t
  end /\
  (forall codec_context audio_stream fuel' (st st1 : LoopState lib)
          n got fr dec,
     refill lib fuel' audio_stream st = Some (false, st1) ->
     avcodec_decode_audio4 lib (decoder st1) (audio_frame st1) (packet st1)
       = (n, got, fr, dec) ->
     n < 0 ->
     exists st',
       audio st' = audio st /\
       format_ctx st' = format_ctx st1 /\
       back_packet_count st' = back_packet_count st + 1 /\
       trace st' = trace st1 ++ [EvDecode (packet st1) n got] /\
       if back_packet_count st <? 100
       then
         iteration lib fuel' codec_context audio_stream st = Continue st' /\
         decode_loop lib (S fuel') codec_context audio_stream st
           = decode_loop lib fuel' codec_context audio_stream st' /\
         size (packet st') = 0 /\ current_packet_offset st' = 0 /\
         forall f c p,
           read f (format_ctx st') (packet st') (index audio_stream)
             = Some (c, p) ->
           exists st2,
             refill lib f audio_stream st' = Some (size p <=? 0, st2) /\
             packet st2 = p /\ trace st2 = trace st' ++ [EvRead p]
       else
         iteration lib fuel' codec_context audio_stream st
           = Throw TooManyBadPacketsError st' /\
         decode_loop lib (S fuel') codec_context audio_stream st
           = LoopThrew TooManyBadPacketsError st').
Proof.
  split; [|split].
  - intros cc s c dec rs.
    exact (decode_loop_counted lib cc s fuel _
             (counting_initial lib c dec rs a)).
  - destruct (fill_audio_data_cases lib fuel file_path a)
      as [(e & Hb & -> & _)|(s & c & dec & r & rs & _ & Hrun)].
    + destruct e; try discriminate; unfold bad_decodes; simpl;
        (split; [lia|exact I]).
    + cbv zeta in Hrun. destruct Hrun as (_ & _ & ->).
      match goal with
      | |- context [decode_loop _ _ ?cc _ ?st0] =>
          pose proof (decode_loop_counted lib cc s fuel st0
                        (counting_initial lib c dec rs _)) as H;
          destruct (decode_loop lib fuel cc s st0) as [st|e st|st]
      end; simpl in H |- *; [tauto| |tauto].
      destruct e; tauto.
  - intros cc s fuel' st st1 n got fr dec.
    apply bad_packet_round.
Qed.

(** The boundary on a file: with 100 packets that all fail to decode the
    call returns, and with 101 it throws at the 101st. *)
Lemma hundred_bad_packets_tolerated :
  match fill_audio_data (corrupt_lib 100) 200 "corrupt.wav" AudioData_new with
  | Returned _ t => bad_decodes t = 100%nat
  | _ => False
  end /\
  match fill_audio_data (corrupt_lib 101) 200 "corrupt.wav" AudioData_new with
  | Threw TooManyBadPacketsError _ t =>
      bad_decodes t = 101%nat /\ ends_bad t = true
  | _ => False
  end.
Proof. vm_compute. auto. Qed.

(** ** What a failed call leaves in the accumulator *)

(** C3 as stated fails: a file whose packets are all rejected ends in
    [TooManyBadPacketsError] with frame rate and channel count already
    written to the accumulator, and a file whose frame the resampler refuses
    ends in [ResampleConvertError] likewise. *)
Lemma accumulator_written_before_loop_error :
  match fill_audio_data (corrupt_lib 101) 200 "corrupt.wav" AudioData_new with
  | Threw TooManyBadPacketsError a' _ =>
      ad_frameRate a' = 44100 /\ ad_channels a' = 1 /\ a' <> AudioData_new
  | _ => False
  end /\
  match fill_audio_data aac_broken_lib 5 "broken.aac" AudioData_new with
  | Threw ResampleConvertError a' _ =>
      ad_frameRate a' = 48000 /\ ad_channels a' = 2 /\ a' <> AudioData_new
  | _ => False
  end.
Proof. vm_compute. repeat split; discriminate. Qed.

(** C3, amended.  If the call fails with one of the six errors raised
    before the loop ([OpenError], [ProbeError], [NoAudioStreamError],
    [UnsupportedCodecError], [CodecOpenError], [ResampleOpenError]) the
    accumulator is left as it was.  If it fails inside the loop
    ([ResampleConvertError], [TooManyBadPacketsError]) the accumulator holds
    the frame rate and channel count of the selected stream, and its
    samples are the samples it had before followed by the samples of the
    frames appended before the failure, as long as these are fewer than
    2^32 samples in all. *)
Theorem accumulator_untouched_by_early_errors
    lib fuel file_path a e a' t :
  fill_audio_data lib fuel file_path a = Threw e a' t ->
  if before_loop e then a' = a /\ t = []
  else exists s,
      selected_stream lib file_path = Some s /\
      ad_frameRate a' = to_unsigned (sample_rate (codec s)) /\
      ad_channels a' = to_unsigned (channels (codec s)) /\
      (Z.of_nat (length (ad_samples a)) + total_samples (appended t) < 2 ^ 32
       -> ad_samples a' = ad_samples a ++ samples_of (appended t)).
Proof.
  intros Hf.
  destruct (fill_audio_data_cases lib fuel file_path a)
    as [(e0 & Hb & He & _)|(s & c & dec & r & rs & Hs & Hrun)].
  - rewrite He in Hf. injection Hf as <- <- <-. now rewrite Hb.
  - cbv zeta in Hrun. destruct Hrun as (_ & _ & Hrun). rewrite Hrun in Hf.
    match type of Hf with
    | outcome_of (decode_loop _ _ ?cc _ ?st0) = _ =>
        pose proof (decode_loop_accumulated lib cc s _ fuel st0
                      (accumulating_initial lib c dec rs _)) as Hacc;
        destruct (decode_loop lib fuel cc s st0) as [st|e1 st|st] eqn:El;
        try discriminate
    end.
    injection Hf as <- <- <-.
    rewrite (decode_loop_throw _ _ _ _ _ _ _ El).
    destruct Hacc as (Hr & Hc & Hsam).
    exists s. repeat split; auto.
Qed.

(** The run on [flaky_file] into an accumulator that has been used before:
    one frame is appended, then the 101st rejection ends the call. *)
Lemma flaky_run :
  exists t,
    fill_audio_data flaky_lib 200 "flaky.wav" used_audio =
      Threw TooManyBadPacketsError
        (mkAudio [to_float 7; to_float 257] 1 44100 2%nat 0%nat) t /\
    appended t = [one_sample_frame].
Proof.
  assert (H : match fill_audio_data flaky_lib 200 "flaky.wav" used_audio with
              | Threw TooManyBadPacketsError a' t =>
                  a' = mkAudio [to_float 7; to_float 257] 1 44100 2%nat 0%nat
                  /\ appended t = [one_sample_frame]
              | _ => False
              end) by (vm_compute; split; reflexivity).
  destruct (fill_audio_data flaky_lib 200 "flaky.wav" used_audio)
    as [|e a' t|]; try contradiction.
  destruct e; try contradiction. destruct H as [-> H].
  exists t. split; [reflexivity|exact H].
Qed.

(** A file without an audio stream and an accumulator that has been used
    before: the call throws [NoAudioStreamError] and the accumulator is as
    it was.  And [flaky_file]: the call throws [TooManyBadPacketsError],
    and the accumulator has the rate and channel count of the stream and
    the sample of the one frame after the sample it had. *)
Lemma accumulator_untouched_by_early_errors_witness :
  (fill_audio_data silent_movie_lib 5 "silent.mkv" used_audio
     = Threw NoAudioStreamError used_audio [] /\
   (used_audio = used_audio /\ @nil Event = [])) /\
  exists t,
    fill_audio_data flaky_lib 200 "flaky.wav" used_audio =
      Threw TooManyBadPacketsError
        (mkAudio [to_float 7; to_float 257] 1 44100 2%nat 0%nat) t /\
    appended t = [one_sample_frame] /\
    exists s,
      selected_stream flaky_lib "flaky.wav" = Some s /\
      44100 = to_unsigned (sample_rate (codec s)) /\
      1 = to_unsigned (channels (codec s)) /\
      (Z.of_nat (length (ad_samples used_audio))
       + total_samples (appended t) < 2 ^ 32 ->
       [to_float 7; to_float 257]
       = ad_samples used_audio ++ samples_of (appended t)).
Proof.
  split.
  - split; [reflexivity|].
    exact (accumulator_untouched_by_early_errors silent_movie_lib 5
             "silent.mkv" used_audio NoAudioStreamError used_audio []
             eq_refl).
  - destruct flaky_run as (t & Hrun & Happ).
    exists t. split; [exact Hrun|]. split; [exact Happ|].
    exact (accumulator_untouched_by_early_errors flaky_lib 200 "flaky.wav"
             used_audio TooManyBadPacketsError _ t Hrun).
Defined.

(** ** What a successful call leaves in the accumulator *)



(** With 2^32 - 1 samples in the accumulator the count is at its limit:
    for one sample more the sum of the two [unsigned int]s is 0, and the
    sequence is resized to no samples at all. *)
Lemma addToSampleCount_wraps a :
  Z.of_nat (length (ad_samples a)) = 2 ^ 32 - 1 ->
  ad_samples (addToSampleCount 1 a) = [].
Proof.
  intros H. simpl. unfold getSampleCount. rewrite H.
  replace (Z.to_nat _) with 0%nat by (vm_compute; reflexivity).
  apply resize_0.
Qed.





(** ** Rate and channel count *)




(** * Further properties *)

(** ** The splitter and its inverse *)

Lemma getline_chars_field d f rest :
  has_char d f = false ->
  getline_chars (f ++ String d rest) d = (f, rest).
Proof.
  induction f as [|c f IH]; simpl.
  - now rewrite Ascii.eqb_refl.
  - intros H. apply orb_false_elim in H as [Hc Hf].
    rewrite Hc, IH by exact Hf. reflexivity.
Qed.

Lemma getline_chars_last d f :
  has_char d f = false -> getline_chars f d = (f, EmptyString).
Proof.
  induction f as [|c f IH]; simpl; [reflexivity|].
  intros H. apply orb_false_elim in H as [Hc Hf].
  rewrite Hc, IH by exact Hf. reflexivity.
Qed.

(** An extracted item holds no delimiter, and the stream was the item
    alone or the item, a delimiter and the rest. *)
Lemma getline_chars_cases d : forall s item rest,
  getline_chars s d = (item, rest) ->
  has_char d item = false /\
  ((s = item /\ rest = EmptyString) \/ s = (item ++ String d rest)%string).
Proof.
  induction s as [|c s IH]; intros item rest; simpl.
  - intros [= <- <-]. auto.
  - destruct (Ascii.eqb c d) eqn:E.
    + intros [= <- <-]. apply Ascii.eqb_eq in E. subst. auto.
    + destruct (getline_chars s d) as [i r].
      intros [= <- <-]. destruct (IH _ _ eq_refl) as [Hi [[-> ->]| ->]];
        simpl; rewrite E; auto.
Qed.

Lemma split_fuel s d fuel :
  (String.length s < fuel)%nat -> split_loop fuel s d = split s d.
Proof. intros H. unfold split. apply split_loop_enough; lia. Qed.

Lemma split_empty d : split EmptyString d = [].
Proof. reflexivity. Qed.

Lemma getline_chars_shorter d c s item rest :
  getline_chars (String c s) d = (item, rest) ->
  (String.length rest < String.length (String c s))%nat.
Proof.
  simpl. destruct (Ascii.eqb c d).
  - intros [= <- <-]. lia.
  - destruct (getline_chars s d) as [i r] eqn:E. intros [= <- <-].
    pose proof (getline_chars_length d _ _ _ E). lia.
Qed.

(** [split] on a stream that is not empty: the first item, then the split
    of what [getline] left. *)
Lemma split_cons s d item rest :
  s <> EmptyString -> getline_chars s d = (item, rest) ->
  split s d = item :: split rest d.
Proof.
  intros Hs E. unfold split at 1. cbn [split_loop].
  destruct s as [|c s]; [congruence|]. unfold getline. rewrite E.
  f_equal. apply split_fuel. now apply getline_chars_shorter in E.
Qed.

Lemma string_app_assoc (s1 s2 s3 : string) :
  ((s1 ++ s2) ++ s3 = s1 ++ (s2 ++ s3))%string.
Proof.
  induction s1 as [|c s1 IH]; [reflexivity|].
  change (String c ((s1 ++ s2) ++ s3) = String c (s1 ++ s2 ++ s3))%string.
  now f_equal.
Qed.

Lemma join_nonempty d f g fs : join d (f :: g :: fs) <> EmptyString.
Proof. unfold join. simpl. destruct f; simpl; discriminate. Qed.

Lemma split_nil s d : split s d = [] -> s = EmptyString.
Proof.
  destruct s as [|c s]; [reflexivity|].
  intros H.
  rewrite (split_cons (String c s) d _ _ ltac:(discriminate)
             (surjective_pairing _)) in H.
  discriminate H.
Qed.

(** X1.  [split] undoes [join]: fields that hold no delimiter, the last of
    them not empty, come back from the joined string as they were, and one
    delimiter after the last field adds no field. *)
Theorem split_join d fields :
  Forall (fun f => has_char d f = false) fields ->
  last_nonempty fields ->
  split (join d fields) d = fields /\
  (fields <> [] ->
   split (join d fields ++ String d EmptyString) d = fields).
Proof.
  induction fields as [|f fs IH]; intros Hf Hl.
  - split; [reflexivity|congruence].
  - apply Forall_cons in Hf as [Hf Hfs].
    destruct fs as [|g fs].
    + unfold last_nonempty in Hl. simpl in Hl. unfold join. simpl.
      split.
      * rewrite (split_cons f d f EmptyString Hl)
          by now apply getline_chars_last.
        reflexivity.
      * intros _.
        rewrite (split_cons _ d f EmptyString)
          by (try apply getline_chars_field; try exact Hf;
              destruct f; discriminate).
        reflexivity.
    + destruct IH as [IH1 IH2]; [exact Hfs| |].
      { unfold last_nonempty in *. exact Hl. }
      specialize (IH2 ltac:(discriminate)).
      split; [|intros _].
      * rewrite (split_cons _ d f (join d (g :: fs)))
          by (try (apply join_nonempty);
              apply (getline_chars_field d f _ Hf)).
        now rewrite IH1.
      * assert (E : (join d (f :: g :: fs) ++ String d EmptyString)%string
                    = (f ++ String d (join d (g :: fs)
                                      ++ String d EmptyString))%string).
        { unfold join. cbn [String.concat].
          rewrite !string_app_assoc. reflexivity. }
        rewrite E.
        rewrite (split_cons _ d f _)
          by (try apply getline_chars_field; try exact Hf;
              destruct f; discriminate).
        now rewrite IH2.
Qed.

(** Three fields, with and without a comma at the end. *)
Lemma split_join_witness :
  let fields := ["0.5"; ""; "12"]%string in
  last_nonempty fields /\
  split (join "," fields) "," = fields /\
  (fields <> [] -> split (join "," fields ++ ",") "," = fields).
Proof.
  assert (Hl : last_nonempty ["0.5"; ""; "12"]%string)
    by (unfold last_nonempty; simpl; discriminate).
  split; [exact Hl|].
  apply (split_join "," ["0.5"; ""; "12"]%string); [|exact Hl].
  repeat constructor.
Defined.

(** X2.  What [split] returns for any string: no field holds the
    delimiter, and the string is the fields joined by the delimiter,
    followed by one more delimiter or by nothing. *)
Theorem join_split d : forall s,
  Forall (fun f => has_char d f = false) (split s d) /\
  (s = join d (split s d) \/
   s = (join d (split s d) ++ String d EmptyString)%string).
Proof.
  intros s. remember (S (String.length s)) as n eqn:Hn.
  assert (Hlt : (String.length s < n)%nat) by lia. clear Hn.
  revert s Hlt. induction n as [|n IH]; intros s Hlt; [lia|].
  destruct s as [|c s]; [repeat split; auto|].
  destruct (getline_chars (String c s) d) as [item rest] eqn:E.
  pose proof (getline_chars_shorter d c s _ _ E) as Hsh.
  rewrite (split_cons _ d item rest) by (try exact E; discriminate).
  destruct (IH rest ltac:(lia)) as (Hf & Hj).
  destruct (getline_chars_cases d _ _ _ E) as [Hi Hs].
  split; [constructor; assumption|].
  destruct (split rest d) as [|x xs] eqn:Er.
  - apply split_nil in Er. subst rest. unfold join. simpl.
    destruct Hs as [[Hs _]|Hs]; [left|right]; exact Hs.
  - destruct Hs as [[Hs Hr]|Hs];
      [subst rest; rewrite split_empty in Er; discriminate Er|].
    unfold join in *. cbn [String.concat].
    destruct Hj as [Hj|Hj]; [left|right]; rewrite Hs; rewrite Hj at 1.
    + reflexivity.
    + now rewrite !string_app_assoc.
Qed.

(** ** Parsing a profile *)

(** The loop over [n] fields from [s] on, when the vector is long enough
    and every field it reads is a number: entries [s .. s+n-1] of the array
    are overwritten and the others are kept. *)
Lemma parse_profile_ok stod v : forall n s ps,
  (s + n <= length v)%nat -> (s + n <= length ps)%nat ->
  (forall k item, (s <= k < s + n)%nat -> v !! k = Some item ->
                  is_Some (stod item)) ->
  exists ps',
    parse_profile stod v s n ps = ParsedOk ps' /\
    length ps' = length ps /\
    forall k, ps' !! k =
      if decide (s <= k < s + n)%nat then v !! k ≫= stod else ps !! k.
Proof.
  induction n as [|n IH]; intros s ps Hv Hp Hok.
  - exists ps. repeat split. intros k. case_decide; [lia|reflexivity].
  - simpl. unfold vector_at.
    destruct (v !! s) as [item|] eqn:E;
      [|apply lookup_ge_None in E; lia].
    destruct (Hok s item ltac:(lia) E) as [x Hx]. rewrite Hx.
    destruct (IH (S s) (<[s := x]> ps)) as (ps' & Hr & Hl & Hk).
    + lia.
    + rewrite length_insert. lia.
    + intros k it Hk. apply Hok. lia.
    + exists ps'. split; [exact Hr|]. split.
      * now rewrite Hl, length_insert.
      * intros k. rewrite Hk.
        destruct (decide (k = s)) as [->|Hne].
        -- case_decide; [lia|]. case_decide; [|lia].
           rewrite list_lookup_insert_eq by lia. rewrite E. simpl.
           now rewrite Hx.
        -- repeat case_decide; try lia; try reflexivity.
           now rewrite list_lookup_insert_ne by lia.
Qed.

(** X3.  With at least twelve fields, the first twelve of them numbers, the
    loop of [-j] and [-i] ends normally: entry [k] of the array is the value
    of field [k], whatever the array held before, and further fields are
    not looked at. *)
Theorem profile_parsed_from_first_twelve_fields stod v ps :
  length ps = SEMITONES ->
  (SEMITONES <= length v)%nat ->
  (forall k item, (k < SEMITONES)%nat -> v !! k = Some item ->
                  is_Some (stod item)) ->
  exists ps',
    parse_profile stod v 0 SEMITONES ps = ParsedOk ps' /\
    length ps' = SEMITONES /\
    forall k, (k < SEMITONES)%nat -> ps' !! k = v !! k ≫= stod.
Proof.
  intros Hl Hv Hok.
  destruct (parse_profile_ok stod v SEMITONES 0 ps) as (ps' & Hr & Hl' & Hk).
  - simpl. exact Hv.
  - rewrite Hl. simpl. lia.
  - intros k item Hk. apply Hok. lia.
  - exists ps'. split; [exact Hr|]. split; [congruence|].
    intros k Hlt. rewrite Hk. case_decide; [reflexivity|lia].
Qed.

(** Thirteen fields: the thirteenth is ignored. *)
Lemma profile_parsed_from_first_twelve_fields_witness :
  (SEMITONES <= length thirteen_fields)%nat /\
  exists ps',
    parse_profile stod_digits thirteen_fields 0 SEMITONES
                  (replicate SEMITONES (S754_zero false)) = ParsedOk ps' /\
    length ps' = SEMITONES /\
    forall k, (k < SEMITONES)%nat ->
              ps' !! k = thirteen_fields !! k ≫= stod_digits.
Proof.
  assert (Hv : (SEMITONES <= length thirteen_fields)%nat)
    by (vm_compute; lia).
  split; [exact Hv|].
  apply (profile_parsed_from_first_twelve_fields stod_digits thirteen_fields
           (replicate SEMITONES (S754_zero false)) eq_refl Hv).
  intros k item Hk Hi.
  do 12 (destruct k as [|k];
         [injection Hi as <-; vm_compute; eauto|]).
  unfold SEMITONES in Hk. lia.
Defined.

(** The loop stops at the first field that is not a number. *)
Lemma parse_profile_throw stod v k item : forall n s ps,
  (s <= k < s + n)%nat ->
  (forall j it, (s <= j < k)%nat -> v !! j = Some it -> is_Some (stod it)) ->
  v !! k = Some item -> stod item = None ->
  parse_profile stod v s n ps = ParsedThrow k.
Proof.
  induction n as [|n IH]; intros s ps Hk Hok Hv Hs; [lia|].
  simpl. unfold vector_at.
  destruct (decide (s = k)) as [->|Hne].
  - now rewrite Hv, Hs.
  - destruct (v !! s) as [it|] eqn:E.
    + destruct (Hok s it ltac:(lia) E) as [x ->].
      apply IH; auto; [lia|]. intros j it' Hj. apply Hok. lia.
    + apply lookup_ge_None in E. apply lookup_lt_Some in Hv. lia.
Qed.

(** X4.  If one of the first twelve fields is not a number, [std::stod]
    throws at the first such field: the fields after it are not read,
    however many there are. *)
Theorem profile_parse_stops_at_first_bad_field stod v ps k item :
  (k < SEMITONES)%nat ->
  (forall j it, (j < k)%nat -> v !! j = Some it -> is_Some (stod it)) ->
  v !! k = Some item -> stod item = None ->
  parse_profile stod v 0 SEMITONES ps = ParsedThrow k.
Proof.
  intros Hk Hok Hv Hs.
  apply (parse_profile_throw stod v k item); auto; try lia.
  intros j it Hj. apply Hok. lia.
Qed.

(** Three fields, the third not a number: the exception comes before the
    read past the end would. *)
Lemma profile_parse_stops_at_first_bad_field_witness :
  stod_digits "x" = None /\
  parse_profile stod_digits ["1"; "2"; "x"]%string 0 SEMITONES []
    = ParsedThrow 2.
Proof.
  split; [reflexivity|].
  apply (profile_parse_stops_at_first_bad_field stod_digits
           ["1"; "2"; "x"]%string [] 2 "x"%string).
  - unfold SEMITONES. lia.
  - intros j it Hj Hi.
    do 2 (destruct j as [|j]; [injection Hi as <-; vm_compute; eauto|]).
    lia.
  - reflexivity.
  - reflexivity.
Defined.

(** ** The weighted profiles *)

(** X5.  The vector [toneProfileMajor] and [toneProfileMinor] build from a
    twelve-entry profile has 72 entries, and entry [12 o + s] is the weight
    of octave [o] times entry [s] of the profile. *)
Theorem weighted_profile_entries ps :
  length ps = SEMITONES ->
  length (weighted_profile ps) = (OCTAVES * SEMITONES)%nat /\
  forall o i w p,
    OCTAVE_WEIGHTS !! o = Some w -> ps !! i = Some p ->
    weighted_profile ps !! (o * SEMITONES + i)%nat = Some (SFmul 53 1024 w p).
Proof.
  intros Hl.
  do 13 (destruct ps as [|? ps]; try discriminate Hl).
  split; [reflexivity|].
  intros o i w p Ho Hi.
  do 6 (destruct o as [|o];
        [injection Ho as <-;
         do 12 (destruct i as [|i]; [injection Hi as <-; reflexivity|]);
         discriminate Hi|]).
  discriminate Ho.
Qed.

(** The built-in major profile. *)
Lemma weighted_profile_entries_witness :
  length MAJOR_PROFILE = SEMITONES /\
  length (weighted_profile MAJOR_PROFILE) = (OCTAVES * SEMITONES)%nat /\
  forall o i w p,
    OCTAVE_WEIGHTS !! o = Some w -> MAJOR_PROFILE !! i = Some p ->
    weighted_profile MAJOR_PROFILE !! (o * SEMITONES + i)%nat
      = Some (SFmul 53 1024 w p).
Proof.
  split; [reflexivity|].
  exact (weighted_profile_entries MAJOR_PROFILE eq_refl).
Defined.

(** ** The option loop *)

Section OptionFacts.

Variable lib : Libav.
Variable Notation : Type.
Variable mappings : gmap string Notation.
Variable standard : Notation.
Variable label : Notation -> Z -> string.
Variable SILENCE : Z.
Variable estimate_key :
  AudioData -> list spec_float -> list spec_float -> string + Z.
Variable stod : string -> option spec_float.

Lemma parse_profile_length v : forall n s ps ps',
  parse_profile stod v s n ps = ParsedOk ps' -> length ps' = length ps.
Proof.
  induction n as [|n IH]; intros s ps ps'; simpl.
  - now intros [= <-].
  - destruct (vector_at v s) as [item|]; [|discriminate].
    destruct (stod item) as [x|]; [|discriminate].
    intros H. apply IH in H. now rewrite length_insert in H.
Qed.

Lemma weighted_profile_nonempty ps :
  length ps = SEMITONES -> weighted_profile ps <> [].
Proof.
  intros H. destruct ps as [|x ps]; [discriminate|]. discriminate.
Qed.

(** Through the option loop the array keeps its length, and a memoised
    vector that has been filled is never filled again. *)
Lemma option_loop_keeps_profiles argv0 : forall opts o o',
  option_loop Notation mappings stod argv0 opts o = inr o' ->
  length (profiles o') = length (profiles o) /\
  (tpMajor o <> [] -> tpMajor o' = tpMajor o) /\
  (tpMinor o <> [] -> tpMinor o' = tpMinor o).
Proof.
  induction opts as [|[c optarg] opts IH]; intros o o'; cbn [option_loop].
  - intros [= <-]. auto.
  - destruct (Ascii.eqb c "h"); [discriminate|].
    destruct (Ascii.eqb c "?"); [discriminate|].
    destruct (Ascii.eqb c "n").
    { destruct (mappings !! optarg); [|discriminate].
      intros H. apply IH in H. exact H. }
    destruct (Ascii.eqb c "j").
    { destruct (parse_profile _ _ _ _ _) as [ps| |] eqn:E; try discriminate.
      apply parse_profile_length in E.
      intros H. apply IH in H. cbn [profiles tpMajor tpMinor] in H.
      destruct H as (H1 & H2 & H3).
      split; [congruence|]. split; [|exact H3].
      intros Hne. rewrite H2.
      - unfold toneProfileMajor.
        destruct (tpMajor o); [congruence|reflexivity].
      - unfold toneProfileMajor.
        destruct (tpMajor o); [congruence|discriminate]. }
    destruct (Ascii.eqb c "i").
    { destruct (parse_profile _ _ _ _ _) as [ps| |] eqn:E; try discriminate.
      apply parse_profile_length in E.
      intros H. apply IH in H. cbn [profiles tpMajor tpMinor] in H.
      destruct H as (H1 & H2 & H3).
      split; [congruence|]. split; [exact H2|].
      intros Hne. rewrite H3.
      - unfold toneProfileMinor.
        destruct (tpMinor o); [congruence|reflexivity].
      - unfold toneProfileMinor.
        destruct (tpMinor o); [congruence|discriminate]. }
    apply IH.
Qed.

(** X6.  The first [-j] option fixes the major profile for the whole run:
    the vector memoised when it is handled is the weighted profile of its
    argument, no later option changes it, and the call
    [toneProfileMajor(MAJOR_PROFILE)] of the key estimation returns it
    instead of the built-in table.  The same for [-i] and the minor
    profile. *)
Theorem first_profile_option_wins argv0 arg opts o o' :
  length (profiles o) = SEMITONES ->
  (tpMajor o = [] ->
   option_loop Notation mappings stod argv0 (("j"%char, arg) :: opts) o
     = inr o' ->
   exists ps,
     parse_profile stod (split arg ",") 0 SEMITONES (profiles o)
       = ParsedOk ps /\
     tpMajor o' = weighted_profile ps /\
     toneProfileMajor (tpMajor o') MAJOR_PROFILE = weighted_profile ps) /\
  (tpMinor o = [] ->
   option_loop Notation mappings stod argv0 (("i"%char, arg) :: opts) o
     = inr o' ->
   exists ps,
     parse_profile stod (split arg ",") 0 SEMITONES (profiles o)
       = ParsedOk ps /\
     tpMinor o' = weighted_profile ps /\
     toneProfileMinor (tpMinor o') MINOR_PROFILE = weighted_profile ps).
Proof.
  intros Hl. split; intros Ht; cbn [option_loop];
    simpl Ascii.eqb; cbv iota;
    destruct (parse_profile _ _ _ _ _) as [ps| |] eqn:E; try discriminate;
    intros H; exists ps; (split; [reflexivity|]);
    pose proof (parse_profile_length _ _ _ _ _ E) as Hps;
    apply option_loop_keeps_profiles in H;
    cbn [profiles tpMajor tpMinor] in H;
    destruct H as (_ & H2 & H3); rewrite Ht in *.
  - change (toneProfileMajor [] ps) with (weighted_profile ps) in H2.
    assert (Hw : weighted_profile ps <> [])
      by (apply weighted_profile_nonempty; congruence).
    rewrite (H2 Hw). split; [reflexivity|].
    unfold toneProfileMajor.
    destruct (weighted_profile ps); [congruence|reflexivity].
  - change (toneProfileMinor [] ps) with (weighted_profile ps) in H3.
    assert (Hw : weighted_profile ps <> [])
      by (apply weighted_profile_nonempty; congruence).
    rewrite (H3 Hw). split; [reflexivity|].
    unfold toneProfileMinor.
    destruct (weighted_profile ps); [congruence|reflexivity].
Qed.

(** X7.  Of several [-n] options with known names the last one decides the
    notation, and none of them touches the profiles. *)
Theorem last_notation_wins argv0 names o :
  Forall (fun name => is_Some (mappings !! name)) names ->
  option_loop Notation mappings stod argv0
              (map (fun name => ("n"%char, name)) names) o =
    inr (mkOptions
           (default (selected_notation o)
                    (last names ≫= fun name => mappings !! name))
           (profiles o) (tpMajor o) (tpMinor o)).
Proof.
  intros H. revert o.
  induction H as [|name names [nt Hn] Hs IH]; intros o.
  - destruct o. reflexivity.
  - cbn [map option_loop]. simpl Ascii.eqb. cbv iota.
    rewrite Hn, IH. cbn [selected_notation profiles tpMajor tpMinor].
    destruct names as [|n2 names]; [simpl; now rewrite Hn|].
    rewrite last_cons_cons.
    destruct (last (n2 :: names)) as [l|] eqn:El;
      [|apply last_None in El; discriminate].
    apply last_Some_elem_of in El.
    rewrite Forall_forall in Hs. destruct (Hs l El) as [x Hx].
    simpl. now rewrite Hx.
Qed.

Lemma option_loop_one_line argv0 opts : forall o,
  match option_loop Notation mappings stod argv0 opts o with
  | inl r => one_line_at_most r
  | inr _ => True
  end.
Proof.
  induction opts as [|[c optarg] opts IH]; intros o; [exact I|].
  cbn [option_loop].
  destruct (Ascii.eqb c "h"); [simpl; intuition lia|].
  destruct (Ascii.eqb c "?"); [simpl; intuition lia|].
  destruct (Ascii.eqb c "n").
  { destruct (mappings !! optarg); [apply IH|simpl; intuition lia]. }
  destruct (Ascii.eqb c "j").
  { destruct (parse_profile _ _ _ _ _); [apply IH|exact I..]. }
  destruct (Ascii.eqb c "i").
  { destruct (parse_profile _ _ _ _ _); [apply IH|exact I..]. }
  apply IH.
Qed.

(** X8.  Whenever [main] returns, for any command line, file and library:
    the exit code is 0 or 1, at most one line has been written to the two
    streams together, and with exit code 1 that line is on the error stream
    and nothing is on the output stream. *)
Theorem main_writes_one_line_at_most fuel argv0 opts rest :
  one_line_at_most
    (main lib Notation mappings standard label SILENCE estimate_key stod
          fuel argv0 opts rest).
Proof.
  unfold main.
  match goal with
  | |- context [option_loop _ _ _ _ _ ?o0] =>
      pose proof (option_loop_one_line argv0 opts o0) as H;
      destruct (option_loop Notation mappings stod argv0 opts o0) as [r|o]
  end; [exact H|].
  destruct rest as [|file_path rest]; [simpl; intuition lia|].
  destruct (fill_audio_data lib fuel file_path AudioData_new)
    as [a t|e a t|a t]; [|simpl; intuition lia|exact I].
  destruct (estimate_key _ _ _) as [msg|key]; [simpl; intuition lia|].
  destruct (key =? SILENCE); simpl; intuition lia.
Qed.

Lemma option_loop_ends_normally argv0 opts : forall o,
  forallb no_profile_option opts = true ->
  match option_loop Notation mappings stod argv0 opts o with
  | inl r => ends_normally r = true
  | inr _ => True
  end.
Proof.
  induction opts as [|[c optarg] opts IH]; intros o H; [easy|].
  cbn [forallb] in H. apply andb_prop in H as [Hc H].
  unfold no_profile_option in Hc. cbn [fst] in Hc.
  apply andb_prop in Hc as [Hj Hi].
  apply negb_true_iff in Hj, Hi.
  cbn [option_loop]. rewrite Hj, Hi.
  destruct (Ascii.eqb c "h"); [reflexivity|].
  destruct (Ascii.eqb c "?"); [reflexivity|].
  destruct (Ascii.eqb c "n"); [|now apply IH].
  destruct (mappings !! optarg); [now apply IH|reflexivity].
Qed.

(** X9.  Only the options [-j] and [-i] can end [main] abnormally: on a
    command line without them no exception escapes [main] and no vector is
    read past its end, whatever the other options, the file and the
    library are. *)
Theorem main_without_profile_options fuel argv0 opts rest :
  forallb no_profile_option opts = true ->
  ends_normally
    (main lib Notation mappings standard label SILENCE estimate_key stod
          fuel argv0 opts rest) = true.
Proof.
  intros H. unfold main.
  match goal with
  | |- context [option_loop _ _ _ _ _ ?o0] =>
      pose proof (option_loop_ends_normally argv0 opts o0 H) as Ho;
      destruct (option_loop Notation mappings stod argv0 opts o0) as [r|o]
  end; [exact Ho|].
  destruct rest as [|file_path rest]; [reflexivity|].
  destruct (fill_audio_data lib fuel file_path AudioData_new)
    as [a t|e a t|a t]; try reflexivity.
  destruct (estimate_key _ _ _) as [msg|key]; [reflexivity|].
  now destruct (key =? SILENCE).
Qed.

End OptionFacts.

(** [-j] with twelve numbers: the memoised vector is their weighted
    profile. *)
Lemma first_profile_option_wins_witness :
  exists ps,
    parse_profile stod_digits (split twelve_fields ",") 0 SEMITONES
                  (profiles default_options) = ParsedOk ps /\
    tpMajor custom_options = weighted_profile ps /\
    toneProfileMajor (tpMajor custom_options) MAJOR_PROFILE
      = weighted_profile ps.
Proof.
  apply (proj1 (first_profile_option_wins Z ∅ stod_digits "keyfinder-cli"
                  twelve_fields [] default_options custom_options eq_refl));
    reflexivity.
Defined.

(** [-n camelot -n openkey] selects the second table. *)
Lemma last_notation_wins_witness :
  two_notations !! "openkey"%string = Some 2 /\
  option_loop Z two_notations stod_digits "keyfinder-cli"
    [("n"%char, "camelot"%string); ("n"%char, "openkey"%string)]
    default_options
  = inr (mkOptions
           (default 0 (last ["camelot"; "openkey"]%string
                         ≫= fun name => two_notations !! name))
           (profiles default_options) [] []).
Proof.
  assert (H2 : two_notations !! "openkey"%string = Some 2)
    by apply lookup_insert_eq.
  assert (H1 : two_notations !! "camelot"%string = Some 1).
  { unfold two_notations. rewrite lookup_insert_ne by discriminate.
    apply lookup_singleton_eq. }
  split; [exact H2|].
  apply (last_notation_wins Z two_notations stod_digits "keyfinder-cli"
           ["camelot"; "openkey"]%string default_options).
  repeat constructor; eexists; eassumption.
Defined.

(** [-n camelot -h] on a raw PCM file. *)
Lemma main_without_profile_options_witness :
  ends_normally
    (main (pcm_lib one_frame_file) Z two_notations 0
          (fun _ _ => EmptyString) 24 (fun _ _ _ => inr 0) stod_digits
          5 "keyfinder-cli"
          [("n"%char, "camelot"%string); ("h"%char, EmptyString)]
          ["one.wav"%string]) = true.
Proof.
  apply main_without_profile_options. reflexivity.
Defined.

(** ** The packet reader, once more *)

Lemma read_unit fuel ss u us p target :
  read (S fuel) (mkFormat ss (u :: us)) p target =
    if unit_stream u =? target
    then Some (mkFormat ss us, delivered u)
    else read fuel (mkFormat ss us) (delivered u) target.
Proof. reflexivity. Qed.

Lemma read_end fuel ss p target :
  read (S fuel) (mkFormat ss []) p target =
    if 0 =? target then Some (mkFormat ss [], blank_packet)
    else read fuel (mkFormat ss []) blank_packet target.
Proof. reflexivity. Qed.

(** With a unit of the target stream left, [read] delivers the first
    one. *)
Lemma read_first_match fuel target before u after ss p :
  Forall (fun x => unit_stream x <> target) before ->
  unit_stream u = target ->
  (length before < fuel)%nat ->
  read fuel (mkFormat ss (before ++ u :: after)) p target =
    Some (mkFormat ss after, delivered u).
Proof.
  intros Hb Hu. revert fuel p.
  induction Hb as [|x before Hx Hb IH]; intros fuel p Hf;
    (destruct fuel as [|fuel]; [simpl in Hf; lia|]).
  - cbn [app]. rewrite read_unit. apply Z.eqb_eq in Hu. now rewrite Hu.
  - cbn [app]. rewrite read_unit. apply Z.eqb_neq in Hx. rewrite Hx.
    apply IH. simpl in Hf. lia.
Qed.

(** X10.  For any target stream, as long as the container still holds a
    unit of that stream, [read] returns: it delivers the first such unit
    whole ([data] at its first byte, [size] its length), has dropped the
    units of other streams before it, and leaves the units after it in the
    container.  The packet it was handed has no influence. *)
Theorem read_returns_first_matching_unit fuel target before u after ss p :
  Forall (fun x => unit_stream x <> target) before ->
  unit_stream u = target ->
  (length before < fuel)%nat ->
  exists p',
    read fuel (mkFormat ss (before ++ u :: after)) p target =
      Some (mkFormat ss after, p') /\
    pkt_buf p' = unit_payload u /\
    data p' = Some 0 /\
    size p' = Z.of_nat (length (unit_payload u)) /\
    stream_index p' = target.
Proof.
  intros Hb Hu Hf. exists (delivered u).
  split; [now apply read_first_match|]. repeat split. exact Hu.
Qed.

(** The audio packet of [movie_file], behind the video packet. *)
Lemma read_returns_first_matching_unit_witness :
  exists p',
    read 2 movie_file SafeAVPacket_new 1 =
      Some (mkFormat (streams movie_file) [], p') /\
    pkt_buf p' = [Byte.x01; Byte.x01] /\
    data p' = Some 0 /\
    size p' = 2 /\
    stream_index p' = 1.
Proof.
  apply (read_returns_first_matching_unit 2 1
           [mkUnit 0 (replicate 8 Byte.x00)] (mkUnit 1 [Byte.x01; Byte.x01])
           [] (streams movie_file) SafeAVPacket_new).
  - repeat constructor. simpl. lia.
  - reflexivity.
  - simpl. lia.
Defined.

(** X11.  When the target is stream 0 and the container holds no unit of
    that stream, [read] returns too: it uses up the container and leaves
    the blank packet, whose [size] of 0 ends the decode loop. *)
Theorem read_stream0_end_of_container fuel ss us p :
  Forall (fun x => unit_stream x <> 0) us ->
  (length us < fuel)%nat ->
  read fuel (mkFormat ss us) p 0 = Some (mkFormat ss [], blank_packet).
Proof.
  intros Hb. revert fuel p.
  induction Hb as [|x us Hx Hb IH]; intros fuel p Hf;
    (destruct fuel as [|fuel]; [simpl in Hf; lia|]).
  - now rewrite read_end.
  - rewrite read_unit. apply Z.eqb_neq in Hx. rewrite Hx.
    apply IH. simpl in Hf. lia.
Qed.

(** A container with one packet of stream 1 left. *)
Lemma read_stream0_end_of_container_witness :
  read 2 (mkFormat (streams movie_file) [mkUnit 1 [Byte.x01; Byte.x01]])
       SafeAVPacket_new 0
  = Some (mkFormat (streams movie_file) [], blank_packet).
Proof.
  apply read_stream0_end_of_container.
  - repeat constructor. simpl. lia.
  - simpl. lia.
Defined.

(** What a packet returned by [read] is: the first unit of the target
    stream, or the blank packet at the end of the container, which only
    target 0 can get. *)
Lemma read_cases fuel : forall c p target c' p',
  read fuel c p target = Some (c', p') ->
  streams c' = streams c /\
  ((exists before u,
      pending c = before ++ u :: pending c' /\
      Forall (fun x => unit_stream x <> target) before /\
      unit_stream u = target /\ p' = delivered u) \/
   (target = 0 /\ pending c' = [] /\ p' = blank_packet /\
    Forall (fun x => unit_stream x <> 0) (pending c))).
Proof.
  induction fuel as [|fuel IH]; intros [ss us] p target c' p'; [discriminate|].
  destruct us as [|u us].
  - rewrite read_end. destruct (0 =? target) eqn:E.
    + intros [= <- <-]. apply Z.eqb_eq in E. split; [reflexivity|].
      right. repeat split; auto.
    + intros H. apply IH in H as [Hs [(before & u & Hp & _)|H]].
      * simpl in Hp. now destruct before.
      * apply Z.eqb_neq in E. lia.
  - rewrite read_unit. destruct (unit_stream u =? target) eqn:E.
    + intros [= <- <-]. apply Z.eqb_eq in E. split; [reflexivity|].
      left. exists [], u. repeat split; auto.
    + apply Z.eqb_neq in E.
      intros H. apply IH in H as [Hs [(before & v & Hp & Hb & Hv & ->)|H]].
      * split; [exact Hs|]. left. exists (u :: before), v. simpl in *.
        rewrite Hp. repeat split; auto.
      * split; [exact Hs|]. right. destruct H as (-> & ? & ? & ?).
        simpl in *. repeat split; auto.
Qed.

(** For stream 0 [read] returns as soon as the fuel covers the units
    left. *)
Lemma read_stream0_returns fuel c p :
  (length (pending c) < fuel)%nat ->
  exists c' p', read fuel c p 0 = Some (c', p').
Proof.
  destruct c as [ss us]. revert fuel p.
  induction us as [|u us IH]; intros fuel p Hf;
    (destruct fuel as [|fuel]; [simpl in Hf; lia|]).
  - rewrite read_end. simpl. eauto.
  - rewrite read_unit. destruct (unit_stream u =? 0); [eauto|].
    apply IH. simpl in *. lia.
Qed.

(** ** When the loop ends *)

Lemma units_work_app a b :
  units_work (a ++ b) = (units_work a + units_work b)%nat.
Proof. induction a as [|u a IH]; simpl; [reflexivity|]. rewrite IH. lia. Qed.

Lemma units_work_length us : (length us <= units_work us)%nat.
Proof. induction us as [|u us IH]; simpl; lia. Qed.

Lemma pcm_lib_uses_whole_packets c :
  makes_progress (pcm_lib c) /\ uses_whole_packet (pcm_lib c).
Proof.
  split; intros d fr p n got fr' d'.
  - intros Hs [= <- _ _]. lia.
  - intros [= <- _ _]. now right.
Qed.

Section Termination.

Variable lib : Libav.
Variable cc : AVCodecContext.
Variable s : AVStream.
Hypothesis Hprog : makes_progress lib.
Hypothesis Hidx : index s = 0.

(** The first half of a round: the read returns, and a round that goes on
    to decode has a packet with bytes left and no more work than before. *)
Lemma refill_progress fuel st :
  0 <= current_packet_offset st ->
  (length (pending (format_ctx st)) < fuel)%nat ->
  exists b st1,
    refill lib fuel s st = Some (b, st1) /\
    (b = false ->
     0 <= current_packet_offset st1 < size (packet st1) /\
     (work st1 <= work st)%nat).
Proof.
  intros H0 Hf. unfold refill.
  destruct (size (packet st) <=? current_packet_offset st) eqn:E.
  - destruct (read_stream0_returns fuel (format_ctx st) (packet st) Hf)
      as (c & p & Hr).
    rewrite Hidx, Hr. eexists _, _. split; [reflexivity|].
    intros Hb. apply Z.leb_gt in Hb. simpl.
    apply read_cases in Hr
      as [_ [(before & u & Hp & _ & _ & ->)|(_ & _ & -> & _)]];
      [|simpl in Hb; lia].
    split; [lia|]. unfold work. simpl. rewrite Hp, units_work_app. simpl.
    lia.
  - exists false, st. split; [reflexivity|]. intros _. split; lia.
Qed.

(** A round never waits for [read], and a round after which the loop goes
    on has made the work left smaller. *)
Lemma iteration_progress fuel st :
  0 <= current_packet_offset st ->
  (length (pending (format_ctx st)) < fuel)%nat ->
  match iteration lib fuel cc s st with
  | Continue st' =>
      0 <= current_packet_offset st' /\ (work st' < work st)%nat
  | Stuck => False
  | _ => True
  end.
Proof.
  intros H0 Hf.
  destruct (refill_progress fuel st H0 Hf) as (b & st1 & Hr & H1).
  unfold iteration. rewrite Hr. destruct b; [exact I|].
  destruct (H1 eq_refl) as [Ho Hw]. clear H1.
  destruct (avcodec_decode_audio4 lib _ _ _) as [[[n got] fr] dec] eqn:Ed.
  apply Hprog in Ed; [|lia].
  destruct (n <? 0) eqn:En.
  - unfold bad_packet, log. cbn [back_packet_count].
    destruct (Z.gtb _ _); [exact I|].
    unfold work in *. simpl. split; lia.
  - apply Z.ltb_ge in En.
    assert (Hseek : forall tr fr' dec',
      0 <= current_packet_offset
             (seek_packet lib n
                (mkLoop (format_ctx st1) dec' (resampler st1) (packet st1) fr'
                   (current_packet_offset st1) (back_packet_count st1)
                   (audio st1) tr)) /\
      (work (seek_packet lib n
               (mkLoop (format_ctx st1) dec' (resampler st1) (packet st1) fr'
                  (current_packet_offset st1) (back_packet_count st1)
                  (audio st1) tr)) < work st)%nat).
    { intros tr fr' dec'. unfold work in *. simpl. split; lia. }
    unfold log. cbn [format_ctx decoder resampler packet audio_frame
                     current_packet_offset back_packet_count audio trace].
    destruct (got =? 0); [apply Hseek|].
    destruct (normalize lib cc _) as [st4|st4] eqn:E4; [|exact I].
    apply normalize_frame in E4. cbv zeta in E4.
    destruct E4 as (Hc & _ & Hp & Hoff & _).
    specialize (Hseek (trace st1 ++ [EvDecode (packet st1) n got]) fr dec).
    unfold work in *. unfold populate, log.
    cbn [format_ctx packet current_packet_offset].
    rewrite Hc, Hp, Hoff. exact Hseek.
Qed.

Lemma decode_loop_terminates fuel : forall st,
  0 <= current_packet_offset st ->
  (work st + 2 <= fuel)%nat ->
  match decode_loop lib fuel cc s st with
  | LoopOutOfFuel _ => False
  | _ => True
  end.
Proof.
  induction fuel as [|fuel IH]; intros st H0 Hf; [lia|].
  cbn [decode_loop].
  assert (Hl : (length (pending (format_ctx st)) < fuel)%nat).
  { pose proof (units_work_length (pending (format_ctx st))).
    unfold work in Hf. lia. }
  pose proof (iteration_progress fuel st H0 Hl) as H.
  destruct (iteration lib fuel cc s st) as [st'|st'|e st'|];
    [|exact I|exact I|exact H].
  destruct H as [H0' Hw]. apply IH; [exact H0'|lia].
Qed.

End Termination.

(** X12.  If the stream selected has index 0 and the decoder never answers
    0 for a packet with bytes left, [fill_audio_data] returns or throws:
    every round that does not end the loop uses up a byte of the current
    packet or a unit of the container, so fuel for the bytes and units of
    the container is enough. *)
Theorem fill_audio_data_ends lib file_path a fuel :
  makes_progress lib ->
  (forall s, selected_stream lib file_path = Some s -> index s = 0) ->
  (enough_fuel lib file_path <= fuel)%nat ->
  ended (fill_audio_data lib fuel file_path a) = true.
Proof.
  intros Hp Hs Hf. unfold enough_fuel, probed in Hf.
  unfold selected_stream in Hs. unfold fill_audio_data.
  destruct (avformat_open_input lib file_path) as [r1 c1]. simpl in *.
  destruct (r1 <? 0); [reflexivity|].
  destruct (avformat_find_stream_info lib c1) as [r2 c2]. simpl in *.
  destruct (r2 <? 0); [reflexivity|].
  destruct (find_audio_stream (streams c2)) as [s|]; [|reflexivity].
  destruct (avcodec_find_decoder lib _) as [cd|]; [|reflexivity].
  destruct (avcodec_open2 lib (codec s) cd) as [r3 dec].
  destruct (r3 <? 0); [reflexivity|].
  destruct (avresample_open lib _) as [r4 rs].
  destruct (r4 <? 0); [reflexivity|].
  match goal with
  | |- context [decode_loop _ _ ?cc _ ?st0] =>
      pose proof (decode_loop_terminates lib cc s Hp (Hs s eq_refl) fuel st0)
        as H;
      destruct (decode_loop lib fuel cc s st0) as [st|e st|st]
  end; try reflexivity.
  exfalso. apply H; [simpl; lia|]. unfold work. simpl. lia.
Qed.

(** The raw PCM file of one packet of two bytes: five rounds of fuel. *)
Lemma fill_audio_data_ends_witness :
  makes_progress (pcm_lib one_frame_file) /\
  (enough_fuel (pcm_lib one_frame_file) "one.wav" <= 5)%nat /\
  ended (fill_audio_data (pcm_lib one_frame_file) 5 "one.wav" AudioData_new)
    = true.
Proof.
  assert (Hp : makes_progress (pcm_lib one_frame_file))
    by apply pcm_lib_uses_whole_packets.
  assert (Hf : (enough_fuel (pcm_lib one_frame_file) "one.wav" <= 5)%nat)
    by (vm_compute; lia).
  split; [exact Hp|]. split; [exact Hf|].
  apply (fill_audio_data_ends (pcm_lib one_frame_file) "one.wav"
           AudioData_new 5 Hp); [|exact Hf].
  intros s [= <-]. reflexivity.
Defined.

(** ** Decoders that use whole packets *)

Lemma decodes_fresh_nil : decodes_fresh [].
Proof. intros t1 p n got t2 H. now destruct t1. Qed.

(** Where an element of a list that ends in [ev] can be: it is [ev], or
    it lies in the list before [ev]. *)
Lemma snoc_split {A} (t : list A) ev t1 x t2 :
  t ++ [ev] = t1 ++ x :: t2 ->
  (t2 = [] /\ t = t1 /\ ev = x) \/
  (exists t2', t2 = t2' ++ [ev] /\ t = t1 ++ x :: t2').
Proof.
  destruct t2 as [|e t2' _] using rev_ind.
  - intros H. apply app_inj_tail in H as [-> ->]. now left.
  - intros H. right. exists t2'.
    change (t1 ++ x :: t2' ++ [e]) with (t1 ++ (x :: t2') ++ [e]) in H.
    rewrite app_assoc in H. apply app_inj_tail in H as [-> ->]. easy.
Qed.

Lemma decodes_fresh_snoc t ev :
  is_decode ev = false -> decodes_fresh t -> decodes_fresh (t ++ [ev]).
Proof.
  intros Hev H t1 p n got t2 E.
  apply snoc_split in E as [(_ & _ & ->)|(t2' & _ & ->)];
    [discriminate|]. eapply H; eauto.
Qed.

Lemma decodes_fresh_decode t u n got :
  decodes_fresh t ->
  decodes_fresh ((t ++ [EvRead (delivered u)])
                 ++ [EvDecode (delivered u) n got]).
Proof.
  intros H t1 p n' got' t2 E.
  apply snoc_split in E as [(_ & <- & [= <- _ _])|(t2' & _ & E)].
  - repeat split. now exists t.
  - eapply (decodes_fresh_snoc t (EvRead (delivered u))); eauto.
Qed.

Section Fresh.

Variable lib : Libav.
Variable cc : AVCodecContext.
Variable s : AVStream.
Hypothesis Hwhole : uses_whole_packet lib.

(** A round that starts with a read presents the packet it has read, and
    the round after it starts with a read again. *)
Lemma fresh_round fuel st :
  fresh st ->
  match iteration lib fuel cc s st with
  | Continue st' => fresh st'
  | Break st' | Throw _ st' => decodes_fresh (trace st')
  | Stuck => True
  end.
Proof.
  intros [Ht Hs]. unfold iteration, refill.
  apply Z.leb_le in Hs. rewrite Hs.
  destruct (read fuel _ _ _) as [[c p]|] eqn:Hr; [|exact I].
  unfold log. cbn [format_ctx decoder resampler packet audio_frame
                   current_packet_offset back_packet_count audio trace].
  destruct (size p <=? 0) eqn:Ep.
  { now apply decodes_fresh_snoc. }
  apply Z.leb_gt in Ep.
  apply read_cases in Hr
    as [_ [(before & u & _ & _ & _ & ->)|(_ & _ & -> & _)]];
    [|simpl in Ep; lia].
  destruct (avcodec_decode_audio4 lib _ _ _) as [[[n got] fr] dec] eqn:Ed.
  apply Hwhole in Ed.
  pose proof (decodes_fresh_decode (trace st) u n got Ht) as Hd.
  destruct (n <? 0) eqn:En.
  - unfold bad_packet. cbn [back_packet_count].
    destruct (Z.gtb _ _); [exact Hd|].
    split; [exact Hd|simpl; lia].
  - apply Z.ltb_ge in En. destruct Ed as [Ed|Ed]; [lia|].
    destruct (got =? 0).
    + split; [exact Hd|]. simpl in *. lia.
    + destruct (normalize lib cc _) as [st4|st4] eqn:E4;
        apply normalize_frame in E4; cbv zeta in E4;
        destruct E4 as (_ & _ & Hp & Hoff & _ & _ & Htr).
      * unfold populate, log. split.
        -- cbn [trace]. rewrite Htr. now apply decodes_fresh_snoc.
        -- cbn [packet current_packet_offset]. rewrite Hp, Hoff.
           simpl in *. lia.
      * rewrite Htr. exact Hd.
Qed.

Lemma decode_loop_fresh fuel st :
  fresh st ->
  decodes_fresh (trace_of (outcome_of (decode_loop lib fuel cc s st))).
Proof.
  apply (decode_loop_invariant lib cc s fresh
           (fun o => decodes_fresh (trace_of (outcome_of o)))).
  - intros f st1 st' H E. pose proof (fresh_round f st1 H) as R.
    now rewrite E in R.
  - intros f st1 st' H E. pose proof (fresh_round f st1 H) as R.
    now rewrite E in R.
  - intros f st1 e st' H E. pose proof (fresh_round f st1 H) as R.
    now rewrite E in R.
  - intros st1 [H _]. exact H.
Qed.

End Fresh.

(** X13.  With a decoder that uses all the bytes it is given or rejects
    the packet, every call of the decoder in a run of [fill_audio_data] is
    presented the packet read just before it, whole and from its first
    byte: no packet is presented twice and none in part. *)
Theorem whole_packets_presented_once lib fuel file_path a :
  uses_whole_packet lib ->
  decodes_fresh (trace_of (fill_audio_data lib fuel file_path a)).
Proof.
  intros Hw.
  destruct (fill_audio_data_cases lib fuel file_path a)
    as [(e & _ & -> & _)|(s & c & dec & r & rs & _ & Hrun)].
  - apply decodes_fresh_nil.
  - cbv zeta in Hrun. destruct Hrun as (_ & _ & ->).
    apply decode_loop_fresh; [exact Hw|].
    split; [apply decodes_fresh_nil|simpl; lia].
Qed.

(** The raw PCM file. *)
Lemma whole_packets_presented_once_witness :
  uses_whole_packet (pcm_lib one_frame_file) /\
  decodes_fresh
    (trace_of (fill_audio_data (pcm_lib one_frame_file) 5 "one.wav"
                               AudioData_new)).
Proof.
  assert (Hw : uses_whole_packet (pcm_lib one_frame_file))
    by apply pcm_lib_uses_whole_packets.
  split; [exact Hw|].
  exact (whole_packets_presented_once (pcm_lib one_frame_file) 5 "one.wav"
           AudioData_new Hw).
Defined.

(** ** A decoder that uses nothing *)

Lemma seek_packet_zero lib (st : LoopState lib) :
  current_packet_offset st = 0 ->
  packet (seek_packet lib 0 st) = packet st /\
  current_packet_offset (seek_packet lib 0 st) = 0.
Proof.
  intros H. unfold seek_packet. rewrite H. simpl.
  destruct (packet st) as [b [d|] sz i]; simpl; split; try reflexivity;
    f_equal; try lia; f_equal; lia.
Qed.

(** X14.  The loop has no guard against a decoder that uses no byte: if
    for the packet just read (offset 0, bytes left) the decoder answers 0
    bytes used and no frame in whatever state it is, the round leaves
    packet and offset as they were and the loop never ends; nothing is
    appended and nothing more is read. *)
Theorem decoder_without_progress_never_ends lib cc s p fuel :
  forall st : LoopState lib,
  (forall d fr, exists fr' d',
     avcodec_decode_audio4 lib d fr p = (0, 0, fr', d')) ->
  packet st = p -> current_packet_offset st = 0 -> 0 < size p ->
  exists st', decode_loop lib fuel cc s st = LoopOutOfFuel st' /\
              audio st' = audio st /\ format_ctx st' = format_ctx st.
Proof.
  intros st Hd. revert st.
  induction fuel as [|fuel IH]; intros st Hp Ho Hs; [now exists st|].
  cbn [decode_loop]. unfold iteration, refill.
  rewrite Hp, Ho. destruct (size p <=? 0) eqn:E; [lia|].
  rewrite Hp. destruct (Hd (decoder st) (audio_frame st)) as (fr' & d' & ->).
  change (0 <? 0) with false. change (0 =? 0) with true. cbv iota.
  match goal with
  | |- context [seek_packet lib 0 ?st2] =>
      destruct (seek_packet_zero lib st2 Ho) as [Hp2 Ho2];
      destruct (IH (seek_packet lib 0 st2)) as (st' & -> & Ha & Hc)
  end.
  - rewrite Hp2. reflexivity.
  - exact Ho2.
  - exact Hs.
  - exists st'. split; [reflexivity|]. rewrite Ha, Hc. split; reflexivity.
Qed.

(** A packet of two bytes and the decoder of [stalled_lib]. *)
Lemma decoder_without_progress_never_ends_witness :
  exists st',
    decode_loop (stalled_lib one_frame_file) 100 pcm_mono
                (mkStream 0 pcm_mono) stalled_state = LoopOutOfFuel st' /\
    audio st' = audio stalled_state /\
    format_ctx st' = format_ctx stalled_state.
Proof.
  apply (decoder_without_progress_never_ends (stalled_lib one_frame_file)
           pcm_mono (mkStream 0 pcm_mono)
           (delivered (mkUnit 0 [Byte.x01; Byte.x01])) 100 stalled_state).
  - intros d fr. eexists _, _. reflexivity.
  - reflexivity.
  - reflexivity.
  - simpl. lia.
Defined.

(** ** An empty packet *)

(** X15.  An empty packet of the selected stream is taken for the end of
    the file: the round that reads it leaves the loop, the call returns
    with the accumulator as it was, and the units after it stay unread in
    the container. *)
Theorem empty_packet_ends_the_loop lib cc s fuel (st : LoopState lib)
    before u after :
  size (packet st) <= current_packet_offset st ->
  pending (format_ctx st) = before ++ u :: after ->
  Forall (fun x => unit_stream x <> index s) before ->
  unit_stream u = index s ->
  unit_payload u = [] ->
  (length before + 2 <= fuel)%nat ->
  exists st',
    decode_loop lib fuel cc s st = LoopReturned st' /\
    audio st' = audio st /\
    pending (format_ctx st') = after /\
    trace st' = trace st ++ [EvRead (delivered u)].
Proof.
  intros Hs Hp Hb Hu He Hf.
  destruct fuel as [|fuel]; [lia|]. cbn [decode_loop].
  unfold iteration, refill. apply Z.leb_le in Hs. rewrite Hs.
  destruct (format_ctx st) as [ss us] eqn:Ec. simpl in Hp. subst us.
  rewrite (read_first_match fuel (index s) before u after ss (packet st)
             Hb Hu) by lia.
  assert (Hz : (size (delivered u) <=? 0) = true)
    by (unfold delivered; rewrite He; reflexivity).
  cbv zeta. rewrite Hz. eexists. split; [reflexivity|]. easy.
Qed.

(** [gap_file]: the second packet is never read. *)
Lemma empty_packet_ends_the_loop_witness :
  exists st',
    decode_loop (pcm_lib gap_file) 2 pcm_mono (mkStream 0 pcm_mono)
      (initial_state (pcm_lib gap_file) gap_file tt tt AudioData_new)
      = LoopReturned st' /\
    audio st' = AudioData_new /\
    pending (format_ctx st') = [mkUnit 0 [Byte.x01; Byte.x01]] /\
    trace st' = [EvRead (delivered (mkUnit 0 []))].
Proof.
  apply (empty_packet_ends_the_loop (pcm_lib gap_file) pcm_mono
           (mkStream 0 pcm_mono) 2
           (initial_state (pcm_lib gap_file) gap_file tt tt AudioData_new)
           [] (mkUnit 0 []) [mkUnit 0 [Byte.x01; Byte.x01]]).
  - simpl. lia.
  - reflexivity.
  - constructor.
  - reflexivity.
  - reflexivity.
  - simpl. lia.
Defined.

(** ** Streams that need no resampling *)

Section NoResampling.

Variable lib : Libav.
Variable convert :
  Resampler lib -> AVFrame -> AVFrame -> Z * AVFrame * Resampler lib.
Variable cc : AVCodecContext.
Variable s : AVStream.
Hypothesis Hfmt : sample_fmt cc = AV_SAMPLE_FMT_S16.

Lemma normalize_s16 (st : LoopState lib) : normalize lib cc st = inl st.
Proof. unfold normalize. rewrite Hfmt. reflexivity. Qed.

Lemma iteration_s16 fuel st e st' :
  iteration lib fuel cc s st = Throw e st' -> e = TooManyBadPacketsError.
Proof.
  unfold iteration.
  destruct (refill lib fuel s st) as [[[|] st1]|]; try discriminate.
  destruct (avcodec_decode_audio4 lib _ _ _) as [[[n got] fr] dec].
  destruct (n <? 0).
  - unfold bad_packet. destruct (Z.gtb _ _); [|discriminate].
    now intros [= <- _].
  - destruct (got =? 0); [discriminate|].
    rewrite normalize_s16. discriminate.
Qed.

(** A round of the loop with another converter, on the same state. *)
Lemma iteration_retag fuel st :
  iteration (with_converter lib convert) fuel cc s (retag convert st) =
    match iteration lib fuel cc s st with
    | Continue st' => Continue (retag convert st')
    | Break st' => Break (retag convert st')
    | Throw e st' => Throw e (retag convert st')
    | Stuck => Stuck
    end.
Proof.
  unfold iteration, refill. destruct st as [c d r p f off cnt a t].
  set (st0 := retag convert _). unfold retag in st0. subst st0.
  cbn [format_ctx decoder resampler packet audio_frame
       current_packet_offset back_packet_count audio trace].
  destruct (size p <=? off).
  - destruct (read fuel c p (index s)) as [[c' p']|]; [|reflexivity].
    cbv zeta. unfold log.
    cbn [format_ctx decoder resampler packet audio_frame
         current_packet_offset back_packet_count audio trace].
    destruct (size p' <=? 0); [reflexivity|].
    change (avcodec_decode_audio4 (with_converter lib convert))
      with (avcodec_decode_audio4 lib).
    destruct (avcodec_decode_audio4 lib d f p') as [[[n got] fr] dec].
    destruct (n <? 0).
    + unfold bad_packet.
      cbn [retag format_ctx decoder resampler packet audio_frame
           current_packet_offset back_packet_count audio trace].
      destruct (Z.gtb _ _); reflexivity.
    + destruct (got =? 0); [reflexivity|].
      rewrite normalize_s16. unfold normalize. rewrite Hfmt. reflexivity.
  - change (avcodec_decode_audio4 (with_converter lib convert))
      with (avcodec_decode_audio4 lib).
    unfold log.
    cbn [format_ctx decoder resampler packet audio_frame
         current_packet_offset back_packet_count audio trace].
    destruct (avcodec_decode_audio4 lib d f p) as [[[n got] fr] dec].
    destruct (n <? 0).
    + unfold bad_packet.
      cbn [retag format_ctx decoder resampler packet audio_frame
           current_packet_offset back_packet_count audio trace].
      destruct (Z.gtb _ _); reflexivity.
    + destruct (got =? 0); [reflexivity|].
      rewrite normalize_s16. unfold normalize. rewrite Hfmt. reflexivity.
Qed.

Lemma decode_loop_retag fuel : forall st,
  outcome_of (decode_loop (with_converter lib convert) fuel cc s
                          (retag convert st))
  = outcome_of (decode_loop lib fuel cc s st).
Proof.
  induction fuel as [|fuel IH]; intros st; [reflexivity|].
  cbn [decode_loop]. rewrite iteration_retag.
  destruct (iteration lib fuel cc s st) as [st'|st'|e st'|];
    [apply IH|reflexivity..].
Qed.

Lemma decode_loop_s16 fuel : forall st e st',
  decode_loop lib fuel cc s st = LoopThrew e st' ->
  e = TooManyBadPacketsError.
Proof.
  induction fuel as [|fuel IH]; intros st e st'; [discriminate|].
  cbn [decode_loop].
  destruct (iteration lib fuel cc s st) as [st1|st1|e1 st1|] eqn:E;
    try discriminate.
  - apply IH.
  - intros [= <- _]. now apply iteration_s16 in E.
Qed.

End NoResampling.

(** X16.  A stream that is already 16-bit PCM is never resampled:
    [avresample_convert_frame] is not called, so the outcome of
    [fill_audio_data] is the same whatever that function would do, and the
    call cannot fail with [ResampleConvertError]. *)
Theorem s16_stream_is_not_resampled lib convert fuel file_path a s :
  selected_stream lib file_path = Some s ->
  sample_fmt (codec s) = AV_SAMPLE_FMT_S16 ->
  fill_audio_data (with_converter lib convert) fuel file_path a
    = fill_audio_data lib fuel file_path a /\
  forall a' t,
    fill_audio_data lib fuel file_path a <> Threw ResampleConvertError a' t.
Proof.
  unfold selected_stream, fill_audio_data.
  change (avformat_open_input (with_converter lib convert))
    with (avformat_open_input lib).
  change (avformat_find_stream_info (with_converter lib convert))
    with (avformat_find_stream_info lib).
  change (avcodec_find_decoder (with_converter lib convert))
    with (avcodec_find_decoder lib).
  change (avcodec_open2 (with_converter lib convert))
    with (avcodec_open2 lib).
  change (avresample_open (with_converter lib convert))
    with (avresample_open lib).
  change (av_get_default_channel_layout (with_converter lib convert))
    with (av_get_default_channel_layout lib).
  destruct (avformat_open_input lib file_path) as [r1 c1]. simpl.
  destruct (avformat_find_stream_info lib c1) as [r2 c2]. simpl.
  intros -> Hfmt.
  destruct (r1 <? 0); [split; [reflexivity|discriminate]|].
  destruct (r2 <? 0); [split; [reflexivity|discriminate]|].
  destruct (avcodec_find_decoder lib _) as [cd|];
    [|split; [reflexivity|discriminate]].
  destruct (avcodec_open2 lib (codec s) cd) as [r3 dec].
  destruct (r3 <? 0); [split; [reflexivity|discriminate]|].
  destruct (avresample_open lib _) as [r4 rs].
  destruct (r4 <? 0); [split; [reflexivity|discriminate]|].
  assert (Hcc : sample_fmt (derive_channel_layout
                              (av_get_default_channel_layout lib) (codec s))
                = AV_SAMPLE_FMT_S16).
  { destruct (derive_channel_layout_rate (av_get_default_channel_layout lib)
                (codec s)) as (_ & _ & ->). exact Hfmt. }
  split.
  - apply (decode_loop_retag lib convert _ s Hcc fuel
             (initial_state lib c2 dec rs _)).
  - intros a' t.
    match goal with
    | |- context [decode_loop lib fuel ?cc s ?st0] =>
        pose proof (decode_loop_s16 lib cc s Hcc fuel st0) as H;
        destruct (decode_loop lib fuel cc s st0) as [st|e st|st]
    end; try discriminate.
    rewrite (H e st eq_refl). discriminate.
Qed.

(** The raw PCM file with a resampler that would fail. *)
Lemma s16_stream_is_not_resampled_witness :
  sample_fmt pcm_mono = AV_SAMPLE_FMT_S16 /\
  fill_audio_data (with_converter one_frame_lib failing_converter) 5
                  "one.wav" AudioData_new
    = fill_audio_data one_frame_lib 5 "one.wav" AudioData_new /\
  forall a' t,
    fill_audio_data one_frame_lib 5 "one.wav" AudioData_new
      <> Threw ResampleConvertError a' t.
Proof.
  split; [reflexivity|].
  exact (s16_stream_is_not_resampled one_frame_lib failing_converter 5
           "one.wav" AudioData_new (mkStream 0 pcm_mono) eq_refl eq_refl).
Defined.

(** ** The error line *)

(** X17.  The eight errors of [fill_audio_data] carry eight different
    messages, so the line [main] writes for a failed decode tells which
    step failed. *)
Theorem what_injective e1 e2 : what e1 = what e2 <-> e1 = e2.
Proof.
  split; [|now intros ->].
  destruct e1, e2; intros H; try reflexivity; discriminate H.
Qed.
